(** * Automated expense tracker: the text-to-record pipeline of [app.py]

    A shallow embedding of [parse_expense_data], [categorize_expense],
    [export_to_google_sheets] and the upload handler, with the properties the
    specification states about them.

    Modelling conventions.
    - A Python [str] is a [list ascii]; each [ascii] stands for one code point
      of the range U+0000..U+00FF, classified as CPython classifies it
      ([str.isspace], the [re] classes [\d] and [\s], [str.lower]).
    - A Python [float] obtained from a decimal literal is its exact rational
      value ([Q]); rounding to binary64 is monotone, so it commutes with the
      maximum taken by [np.max].
    - Python exceptions are values of [exn] carried by the [result] monad;
      [try]/[except] is [try_except].
    - The wall clock, the [pandas] date parser and the spreadsheet service are
      not part of the program: they are variables of the sections that need
      them. *)

From Stdlib Require Import String Ascii Bool Arith ZArith QArith Lia Lqa List.
Import ListNotations.

Close Scope Q_scope.
Close Scope Z_scope.
Open Scope nat_scope.
Open Scope list_scope.

Set Implicit Arguments.

(** ** Python strings *)

Module Py.

Definition pystr := list ascii.

Definition str (s : string) : pystr := list_ascii_of_string s.

Definition code (c : ascii) : nat := nat_of_ascii c.

(** [re]'s [\d] on U+0000..U+00FF: the ten ASCII digits. *)
Definition isdigit (c : ascii) : bool := (48 <=? code c) && (code c <=? 57).

(** [str.isspace] / [re]'s [\s] on U+0000..U+00FF. *)
Definition isspace (c : ascii) : bool :=
  let n := code c in
  ((9 <=? n) && (n <=? 13)) || ((28 <=? n) && (n <=? 32)) || (n =? 133) || (n =? 160).

(** [[A-Za-z]]; [re.IGNORECASE] adds no code point below U+0100 to it. *)
Definition isalpha_ascii (c : ascii) : bool :=
  let n := code c in
  ((65 <=? n) && (n <=? 90)) || ((97 <=? n) && (n <=? 122)).

Definition is_char (a c : ascii) : bool := Ascii.eqb a c.

(** [str.lower] on one code point of U+0000..U+00FF. *)
Definition lower_char (c : ascii) : ascii :=
  let n := code c in
  if ((65 <=? n) && (n <=? 90)) || ((192 <=? n) && (n <=? 222) && negb (n =? 215))
  then ascii_of_nat (n + 32) else c.

Definition lower (s : pystr) : pystr := map lower_char s.

(** [s.replace(a, b)] for single characters. *)
Definition replace_char (a b : ascii) (s : pystr) : pystr :=
  map (fun c => if Ascii.eqb c a then b else c) s.

Fixpoint lstrip (s : pystr) : pystr :=
  match s with
  | c :: s' => if isspace c then lstrip s' else s
  | [] => []
  end.

Definition rstrip (s : pystr) : pystr := rev (lstrip (rev s)).

Definition strip (s : pystr) : pystr := rstrip (lstrip s).

(** [s.split(sep)] for a one-character separator: never the empty list. *)
Fixpoint split_on (sep : ascii) (s : pystr) : list pystr :=
  match s with
  | [] => [[]]
  | c :: s' =>
      if Ascii.eqb c sep then [] :: split_on sep s'
      else match split_on sep s' with
           | w :: ws => (c :: w) :: ws
           | [] => [[c]]
           end
  end.

(** [s.split()]: the maximal runs of non-whitespace characters. *)
Fixpoint split_ws_aux (cur : pystr) (s : pystr) : list pystr :=
  match s with
  | [] => match cur with [] => [] | _ => [rev cur] end
  | c :: s' =>
      if isspace c
      then match cur with
           | [] => split_ws_aux [] s'
           | _ => rev cur :: split_ws_aux [] s'
           end
      else split_ws_aux (c :: cur) s'
  end.

Definition split_ws (s : pystr) : list pystr := split_ws_aux [] s.

Fixpoint startswith (p s : pystr) : bool :=
  match p, s with
  | [], _ => true
  | a :: p', c :: s' => Ascii.eqb a c && startswith p' s'
  | _ :: _, [] => false
  end.

(** [k in s] on strings. *)
Fixpoint contains (k s : pystr) : bool :=
  startswith k s ||
  match s with
  | [] => false
  | _ :: s' => contains k s'
  end.

End Py.

Import Py.

(** ** Exceptions *)

Inductive exn : Type :=
| ValueError
| IndexError
| KeyError
| OtherException.

Inductive result (A : Type) : Type :=
| Ok (a : A)
| Raise (e : exn).

Arguments Ok {A} a.
Arguments Raise {A} e.

Definition bind {A B : Type} (m : result A) (f : A -> result B) : result B :=
  match m with
  | Ok a => f a
  | Raise e => Raise e
  end.

Notation "x <- m ;; k" := (bind m (fun x => k))
  (at level 61, m at next level, right associativity).

(** [try: body  except Exception as e: handler]; every [exn] is an
    [Exception]. *)
Definition try_except {A : Type} (body : result A) (handler : exn -> result A) : result A :=
  match body with
  | Ok a => Ok a
  | Raise e => handler e
  end.

Fixpoint mapM {A B : Type} (f : A -> result B) (l : list A) : result (list B) :=
  match l with
  | [] => Ok []
  | a :: l' => b <- f a ;; bs <- mapM f l' ;; Ok (b :: bs)
  end.

(** ** The fragment of [re] the program uses *)

Module Re.

(** Patterns: a greedy bounded repetition of a character class (a single
    character is a repetition [{1,1}]), concatenation, ordered alternation,
    and the anchor [^]. *)
Inductive regex : Type :=
| Rep (c : ascii -> bool) (lo : nat) (hi : option nat)
| Cat (r1 r2 : regex)
| Alt (r1 r2 : regex)
| Bol.

Definition room (hi : option nat) : bool :=
  match hi with
  | None => true
  | Some 0 => false
  | Some (S _) => true
  end.

Definition dec (hi : option nat) : option nat :=
  match hi with
  | None => None
  | Some n => Some (pred n)
  end.

Section Exec.
Context {A : Type}.

(** Greedy repetition with backtracking: take one more character when the
    class and the upper bound allow and the rest of the pattern then
    succeeds; otherwise stop here if the lower bound is met. [bos] tells
    whether the position is the beginning of the subject. *)
Fixpoint rep (c : ascii -> bool) (lo : nat) (hi : option nat)
    (bos : bool) (s : pystr) (k : bool -> pystr -> option A) : option A :=
  let stop := if lo =? 0 then k bos s else None in
  match s with
  | a :: s' =>
      if c a && room hi
      then match rep c (pred lo) (dec hi) false s' k with
           | Some x => Some x
           | None => stop
           end
      else stop
  | [] => stop
  end.

Fixpoint exec (r : regex) (bos : bool) (s : pystr)
    (k : bool -> pystr -> option A) : option A :=
  match r with
  | Rep c lo hi => rep c lo hi bos s k
  | Cat r1 r2 => exec r1 bos s (fun b s' => exec r2 b s' k)
  | Alt r1 r2 =>
      match exec r1 bos s k with
      | Some x => Some x
      | None => exec r2 bos s k
      end
  | Bol => if bos then k bos s else None
  end.
End Exec.

(** The match of [r] that starts at the current position, as the pair of the
    matched text and what follows it. *)
Definition match_here (r : regex) (bos : bool) (s : pystr) : option (pystr * pystr) :=
  match exec r bos s (fun _ rest => Some rest) with
  | Some rest => Some (firstn (length s - length rest) s, rest)
  | None => None
  end.

(** [re.match(r, s)]: group 0 of a match at the beginning of [s]. *)
Definition re_match (r : regex) (s : pystr) : option pystr :=
  option_map fst (match_here r true s).

(** [re.search(r, s)]: group 0 of the leftmost match. *)
Fixpoint search_from (r : regex) (bos : bool) (s : pystr) : option pystr :=
  match match_here r bos s with
  | Some (m, _) => Some m
  | None =>
      match s with
      | [] => None
      | _ :: s' => search_from r false s'
      end
  end.

Definition re_search (r : regex) (s : pystr) : option pystr := search_from r true s.

(** [re.findall(r, s)] for a pattern with at most one group around the whole
    of it: the leftmost non-overlapping matches, left to right. [skip] counts
    the characters of the last match still to be passed over. *)
Fixpoint findall_from (r : regex) (bos : bool) (skip : nat) (s : pystr) : list pystr :=
  match skip with
  | S n =>
      match s with
      | [] => []
      | _ :: s' => findall_from r false n s'
      end
  | 0 =>
      match match_here r bos s with
      | Some (m, _) =>
          m :: match s with
               | [] => []
               | _ :: s' => findall_from r false (pred (length m)) s'
               end
      | None =>
          match s with
          | [] => []
          | _ :: s' => findall_from r false 0 s'
          end
      end
  end.

Definition re_findall (r : regex) (s : pystr) : list pystr := findall_from r true 0 s.

(** Abbreviations for the pattern syntax. *)
Definition chr (a : ascii) : regex := Rep (is_char a) 1 (Some 1).
Definition opt (a : ascii) : regex := Rep (is_char a) 0 (Some 1).
Definition digits (lo : nat) (hi : option nat) : regex := Rep isdigit lo hi.

End Re.

Import Re.

(** ** Numbers and dates *)

Definition digit_val (c : ascii) : nat := code c - 48.

Definition digit_char (n : nat) : ascii := ascii_of_nat (48 + n).

(** The value of a string of decimal digits, most significant first. *)
Definition Z_of_digits (s : pystr) : Z :=
  fold_left (fun acc c => (10 * acc + Z.of_nat (digit_val c))%Z) s 0%Z.

Definition nat_of_digits (s : pystr) : nat :=
  fold_left (fun acc c => 10 * acc + digit_val c) s 0.

Fixpoint pow10 (n : nat) : positive :=
  match n with
  | 0 => 1%positive
  | S n' => (10 * pow10 n')%positive
  end.

(** [float(s)] on the unsigned decimal literals [digits], [digits.digits],
    [digits.] and [.digits]; every other string is a [ValueError] here. *)
Definition py_float (s : pystr) : result Q :=
  match split_on "." s with
  | [ip] =>
      if forallb isdigit ip && negb (length ip =? 0)
      then Ok (Qmake (Z_of_digits ip) 1)
      else Raise ValueError
  | [ip; fp] =>
      if forallb isdigit ip && forallb isdigit fp && negb (length (ip ++ fp) =? 0)
      then Ok (Qmake (Z_of_digits (ip ++ fp)) (pow10 (length fp)))
      else Raise ValueError
  | _ => Raise ValueError
  end.

Definition qmax (a b : Q) : Q := if Qle_bool a b then b else a.

(** [np.max] of a Python list of floats: a [ValueError] on the empty list. *)
Definition np_max (l : list Q) : result Q :=
  match l with
  | [] => Raise ValueError
  | x :: l' => Ok (fold_left qmax l' x)
  end.

(** [l[i]] on a list. *)
Definition py_index {A : Type} (l : list A) (i : nat) : result A :=
  match nth_error l i with
  | Some a => Ok a
  | None => Raise IndexError
  end.

(** A [datetime.date]: year, month, day. *)
Record calendar_date : Type := mkdate { year : nat; month : nat; day : nat }.

(** [datetime.now()]: a calendar date and a time of day. *)
Record datetime : Type := mkdatetime {
  dt_date : calendar_date;
  hour : nat;
  minute : nat;
  second : nat;
  microsecond : nat
}.

Definition is_leap (y : nat) : bool :=
  ((y mod 4 =? 0) && negb (y mod 100 =? 0)) || (y mod 400 =? 0).

Definition days_in_month (y m : nat) : nat :=
  match m with
  | 1 | 3 | 5 | 7 | 8 | 10 | 12 => 31
  | 4 | 6 | 9 | 11 => 30
  | 2 => if is_leap y then 29 else 28
  | _ => 0
  end.

(** A calendar date whose year has four digits (thousands digit 1 to 9). *)
Definition valid_ymd (y m d : nat) : bool :=
  (1 <=? y / 1000) && (y / 1000 <=? 9) && (1 <=? m) && (m <=? 12) &&
  (1 <=? d) && (d <=? days_in_month y m).

Definition valid_date (d : calendar_date) : bool := valid_ymd (year d) (month d) (day d).

Definition pad2 (n : nat) : pystr := [digit_char (n / 10); digit_char (n mod 10)].

Definition pad4 (n : nat) : pystr :=
  [digit_char (n / 1000); digit_char (n / 100 mod 10);
   digit_char (n / 10 mod 10); digit_char (n mod 10)].

(** [%Y] as the C library underneath [strftime] prints it: the decimal
    digits of the year with no leading zero, so that a year below 1000 takes
    fewer than four characters. The years of a [datetime] run from 1 to
    9999. *)
Definition year_digits (y : nat) : pystr :=
  if y <? 10 then [digit_char y]
  else if y <? 100 then pad2 y
  else if y <? 1000
       then [digit_char (y / 100); digit_char (y / 10 mod 10); digit_char (y mod 10)]
       else pad4 y.

(** [d.strftime('%Y-%m-%d')]. *)
Definition strftime_ymd (d : calendar_date) : pystr :=
  year_digits (year d) ++ str "-" ++ pad2 (month d) ++ str "-" ++ pad2 (day d).

(** A string of the shape [YYYY-MM-DD] that names a calendar date. *)
Definition is_iso_date (s : pystr) : bool :=
  match s with
  | [y1; y2; y3; y4; h1; m1; m2; h2; d1; d2] =>
      forallb isdigit [y1; y2; y3; y4; m1; m2; d1; d2] &&
      is_char "-" h1 && is_char "-" h2 &&
      valid_ymd (nat_of_digits [y1; y2; y3; y4])
                (nat_of_digits [m1; m2]) (nat_of_digits [d1; d2])
  | _ => false
  end.

(** What [pd.to_datetime(s, errors='coerce')] evaluates to. *)
Inductive pd_value : Type :=
| Timestamp (d : calendar_date)
| NaT.

(** [x.strftime('%Y-%m-%d')] on a pandas value: [NaT] does not support it. *)
Definition pd_strftime (x : pd_value) : result pystr :=
  match x with
  | Timestamp d => Ok (strftime_ymd d)
  | NaT => Raise ValueError
  end.

(** ** The program

    Line 157 of [app.py] holds nothing but a run of dots; it stands for no
    statement and the embedding passes over it. *)

(** [EXPENSE_CATEGORIES]: a dict literal, iterated in insertion order. *)
Definition EXPENSE_CATEGORIES : list (pystr * list pystr) :=
  [ (str "food", map str ["restaurant"; "cafe"; "pizza"; "burger"; "coffee";
                          "grocery"; "supermarket"; "fresh foods"]%string);
    (str "transportation", map str ["uber"; "lyft"; "taxi"; "gas"; "fuel";
                                    "parking"; "metro"]%string);
    (str "shopping", map str ["amazon"; "walmart"; "target"; "mall"; "store";
                              "shop"]%string);
    (str "utilities", map str ["electric"; "water"; "internet"; "phone";
                               "cable"]%string);
    (str "entertainment", map str ["movie"; "theater"; "netflix"; "spotify";
                                   "game"]%string);
    (str "healthcare", map str ["pharmacy"; "doctor"; "hospital"; "clinic";
                                "medical"]%string);
    (str "other", []) ].

(** [(\d+\.\d{2})] *)
Definition amount_re : regex :=
  Cat (digits 1 None) (Cat (chr ".") (digits 2 (Some 2))).

(** [\d{4}-\d{2}-\d{2}] *)
Definition date_iso_re : regex :=
  Cat (digits 4 (Some 4)) (Cat (chr "-") (Cat (digits 2 (Some 2))
    (Cat (chr "-") (digits 2 (Some 2))))).

(** [\d{1,2}/\d{1,2}/\d{2,4}] *)
Definition date_slash_re : regex :=
  Cat (digits 1 (Some 2)) (Cat (chr "/") (Cat (digits 1 (Some 2))
    (Cat (chr "/") (digits 2 (Some 4))))).

(** [\d{1,2}-\d{1,2}-\d{2,4}] *)
Definition date_hyphen_re : regex :=
  Cat (digits 1 (Some 2)) (Cat (chr "-") (Cat (digits 1 (Some 2))
    (Cat (chr "-") (digits 2 (Some 4))))).

(** [[A-Za-z]{3,9}\s+\d{1,2},?\s+\d{2,4}], under [re.IGNORECASE] *)
Definition date_month_re : regex :=
  Cat (Rep isalpha_ascii 3 (Some 9)) (Cat (Rep isspace 1 None)
    (Cat (digits 1 (Some 2)) (Cat (opt ",") (Cat (Rep isspace 1 None)
      (digits 2 (Some 4)))))).

Definition date_patterns : list regex :=
  [date_iso_re; date_slash_re; date_hyphen_re; date_month_re].

(** [^((A)|(B))] where A is [\$?\d+\.?\d*] and B is [\d{1,2}[/-]\d{1,2}] *)
Definition vendor_skip_re : regex :=
  Cat Bol
    (Alt (Cat (opt "$") (Cat (digits 1 None) (Cat (opt ".") (digits 0 None))))
         (Cat (digits 1 (Some 2))
            (Cat (Rep (fun c => is_char "/" c || is_char "-" c) 1 (Some 1))
               (digits 1 (Some 2))))).

(** The dict [parse_expense_data] returns. *)
Record expense : Type := mkexpense {
  amount : Q;
  date : pystr;
  vendor : pystr;
  description : pystr
}.

(** The [for pattern in date_patterns] loop: [date_found] at its end. *)
Fixpoint date_loop (patterns : list regex) (text : pystr) : option pystr :=
  match patterns with
  | [] => None
  | pattern :: rest =>
      match re_search pattern text with
      | Some m => Some m
      | None => date_loop rest text
      end
  end.

(** Truth value of an optional string: [None] and [''] are false. *)
Definition truthy (o : option pystr) : bool :=
  match o with
  | Some (_ :: _) => true
  | _ => false
  end.

(** The [for line in lines] loop: [vendor] at its end. *)
Fixpoint vendor_loop (lines : list pystr) (vendor0 : pystr) : result pystr :=
  match lines with
  | [] => Ok vendor0
  | line0 :: rest =>
      let line := strip line0 in
      match re_match vendor_skip_re line with
      | Some _ => vendor_loop rest vendor0
      | None =>
          if (3 <? length line)
             && negb (contains (str "receipt") (lower line))
             && negb (contains (str "tax") (lower line))
          then
            let parts := split_ws line in
            match parts with
            | _ :: _ => py_index parts 0
            | [] => vendor_loop rest vendor0
            end
          else vendor_loop rest vendor0
      end
  end.

(** Lines 124-125: [amounts] and [total_amount]. *)
Definition extract_amounts (text : pystr) : result (list Q) :=
  mapM py_float (re_findall amount_re (replace_char "," "." text)).

Definition extract_total_amount (text : pystr) : result Q :=
  amounts <- extract_amounts text ;;
  match amounts with
  | _ :: _ => np_max amounts
  | [] => Ok 0%Q
  end.

(** Lines 147-156: [lines] and [vendor]. *)
Definition extract_vendor (text : pystr) : result pystr :=
  let lines := split_on "010" (strip text) in
  vendor_loop lines (str "Unknown").

Section Extraction.

(** The reading of [datetime.now()] and the behaviour of
    [pd.to_datetime(_, errors='coerce')]. *)
Variable now : datetime.
Variable pd_to_datetime : pystr -> result pd_value.

(** Lines 127-145: [date_found] and [date_parsed]. *)
Definition extract_date (text : pystr) : result pystr :=
  let date_found := date_loop date_patterns text in
  let date_parsed := strftime_ymd (dt_date now) in
  if truthy date_found
  then try_except
         (x <- pd_to_datetime (match date_found with
                               | Some d => d
                               | None => []
                               end) ;;
          pd_strftime x)
         (fun _ => Ok date_parsed)
  else Ok date_parsed.

Definition parse_expense_data (text : pystr) : result expense :=
  total_amount <- extract_total_amount text ;;
  date_parsed <- extract_date text ;;
  vendor_found <- extract_vendor text ;;
  Ok {| amount := total_amount;
        date := date_parsed;
        vendor := vendor_found;
        description := firstn 200 (strip text) |}.

End Extraction.

Definition any {A : Type} (f : A -> bool) (l : list A) : bool := existsb f l.

(** The [for category, keywords in EXPENSE_CATEGORIES.items()] loop. *)
Fixpoint categorize_loop (items : list (pystr * list pystr)) (text : pystr) : pystr :=
  match items with
  | [] => str "other"
  | (category, keywords) :: rest =>
      if any (fun keyword => contains keyword text) keywords
      then category
      else categorize_loop rest text
  end.

Definition categorize_expense (vendor0 description0 : pystr) : pystr :=
  let text := lower (vendor0 ++ str " " ++ description0) in
  categorize_loop EXPENSE_CATEGORIES text.

(** ** Persistence, user interface and spreadsheet export *)

(** A value stored in a dict or sent in a spreadsheet row. *)
Inductive cell : Type :=
| CStr (s : pystr)
| CFloat (q : Q).

Fixpoint str_eqb (a b : pystr) : bool :=
  match a, b with
  | [], [] => true
  | x :: a', y :: b' => Ascii.eqb x y && str_eqb a' b'
  | _, _ => false
  end.

(** A Python dict with string keys, in insertion order. *)
Definition pydict := list (pystr * cell).

(** [d[k]]: a [KeyError] when the key is absent. *)
Fixpoint dict_get (d : pydict) (k : pystr) : result cell :=
  match d with
  | [] => Raise KeyError
  | (k', v) :: d' => if str_eqb k' k then Ok v else dict_get d' k
  end.

(** [d | {k: v}]. *)
Fixpoint dict_set (d : pydict) (k : pystr) (v : cell) : pydict :=
  match d with
  | [] => [(k, v)]
  | (k', v') :: d' =>
      if str_eqb k' k then (k', v) :: d' else (k', v') :: dict_set d' k v
  end.

Definition expense_dict (e : expense) : pydict :=
  [ (str "amount", CFloat (amount e));
    (str "date", CStr (date e));
    (str "vendor", CStr (vendor e));
    (str "description", CStr (description e)) ].

(** A row of the [expenses] table, without the columns the store fills in. *)
Record db_row : Type := mkrow {
  row_date : pystr;
  row_amount : Q;
  row_vendor : pystr;
  row_category : pystr;
  row_raw_text : pystr;
  row_filename : pystr
}.

(** What the page shows. *)
Inductive ui_msg : Type :=
| UiWarning (s : pystr)
| UiSuccess (s : pystr)
| UiError (s : pystr)
| UiErrorExn (s : pystr) (e : exn)
| UiWrite (vendor0 date0 : pystr) (amount0 : Q) (category0 : pystr).

(** The request [service.spreadsheets().values().append(...)] is built from. *)
Record append_request : Type := mkrequest {
  spreadsheetId : pystr;
  range : pystr;
  valueInputOption : pystr;
  insertDataOption : pystr;
  body_values : list (list cell)
}.

Section App.

Variable now : datetime.
Variable pd_to_datetime : pystr -> result pd_value.

(** The spreadsheet collaborator: obtaining the service may fail, and so
    may executing a request against the remote sheet. *)
Variable service : Type.
Variable remote : Type.
Variable get_google_sheets_service : result service.
Variable append_execute : service -> append_request -> remote -> result remote.

Record app_state : Type := mkstate {
  db : list db_row;
  ui : list ui_msg;
  sheet : remote
}.

Definition st_show (m : ui_msg) (st : app_state) : app_state :=
  {| db := db st; ui := ui st ++ [m]; sheet := sheet st |}.

Definition st_insert (r : db_row) (st : app_state) : app_state :=
  {| db := db st ++ [r]; ui := ui st; sheet := sheet st |}.

(** The [try] block of [export_to_google_sheets]. *)
Definition export_try (expense_data : pydict) (spreadsheet_id : pystr)
    (st : app_state) : result (bool * app_state) :=
  srv <- get_google_sheets_service ;;
  let range_name := str "Sheet1" in
  v_date <- dict_get expense_data (str "date") ;;
  v_amount <- dict_get expense_data (str "amount") ;;
  v_vendor <- dict_get expense_data (str "vendor") ;;
  v_category <- dict_get expense_data (str "category") ;;
  let values := [[v_date; v_amount; v_vendor; v_category]] in
  sheet' <- append_execute srv
              {| spreadsheetId := spreadsheet_id;
                 range := range_name;
                 valueInputOption := str "USER_ENTERED";
                 insertDataOption := str "INSERT_ROWS";
                 body_values := values |}
              (sheet st) ;;
  Ok (true, {| db := db st; ui := ui st; sheet := sheet' |}).

Definition export_to_google_sheets (expense_data : pydict) (spreadsheet_id : pystr)
    (st : app_state) : result (bool * app_state) :=
  try_except (export_try expense_data spreadsheet_id st)
    (fun e =>
       Ok (false, st_show (UiErrorExn (str "Error exporting to Google Sheets: ") e) st)).

(** The upload handler from the OCR text on: [button] is what
    [st.button(...)] returns. *)
Definition handle_raw_text (raw_text filename : pystr) (button : bool)
    (st : app_state) : result app_state :=
  match strip raw_text with
  | [] =>
      Ok (st_show (UiWarning (str "No text detected. Try a clearer image or PDF.")) st)
  | _ :: _ =>
      expense_data <- parse_expense_data now pd_to_datetime raw_text ;;
      let category :=
        categorize_expense (vendor expense_data) (description expense_data) in
      let st1 :=
        st_insert {| row_date := date expense_data;
                     row_amount := amount expense_data;
                     row_vendor := vendor expense_data;
                     row_category := category;
                     row_raw_text := raw_text;
                     row_filename := filename |} st in
      let st2 :=
        st_show (UiSuccess (str "Receipt processed and stored successfully!")) st1 in
      let st3 :=
        st_show (UiWrite (vendor expense_data) (date expense_data)
                   (amount expense_data) category) st2 in
      if button then
        let spreadsheet_id := str "YOUR_SPREADSHEET_ID_HERE" in
        r <- export_to_google_sheets
               (dict_set (expense_dict expense_data) (str "category") (CStr category))
               spreadsheet_id st3 ;;
        let (exported, st4) := r in
        if (exported : bool)
        then Ok (st_show (UiSuccess (str "Expense exported to Google Sheets!")) st4)
        else Ok (st_show (UiError (str "Failed to export to Google Sheets.")) st4)
      else Ok st3
  end.

End App.

(** ** Notions the specification is stated with *)

Definition is_nil {A : Type} (l : list A) : bool :=
  match l with
  | [] => true
  | _ :: _ => false
  end.

Definition within (hi : option nat) (n : nat) : Prop :=
  match hi with
  | Some h => n <= h
  | None => True
  end.

(** The strings a pattern denotes; [bos] tells whether the string starts at
    the beginning of the subject. *)
Fixpoint Lang (r : regex) (bos : bool) (m : pystr) : Prop :=
  match r with
  | Rep c lo hi =>
      Forall (fun a => c a = true) m /\ lo <= length m /\ within hi (length m)
  | Cat r1 r2 =>
      exists m1 m2, m = m1 ++ m2 /\ Lang r1 bos m1 /\ Lang r2 (bos && is_nil m1) m2
  | Alt r1 r2 => Lang r1 bos m \/ Lang r2 bos m
  | Bol => bos = true /\ m = []
  end.

(** [m] is an occurrence of the pattern in [text], after [pre]. *)
Definition occurs (r : regex) (text pre m : pystr) : Prop :=
  exists post, text = pre ++ m ++ post /\ Lang r (is_nil pre) m.

Definition matches_anywhere (r : regex) (text : pystr) : Prop :=
  exists pre m, occurs r text pre m.

(** [k] is a substring of [s]. *)
Definition substring (k s : pystr) : Prop :=
  exists pre post, s = pre ++ k ++ post.

(** [k], in lower case, occurs in [s] in some mixture of cases. *)
Definition substring_ci (k s : pystr) : Prop :=
  exists pre m post, s = pre ++ m ++ post /\ lower m = k.

Definition whitespace_only (s : pystr) : Prop :=
  Forall (fun c => isspace c = true) s.

(** One or more digits, a decimal point, exactly two digits. *)
Definition amount_shaped (m : pystr) : Prop :=
  exists ip d1 d2,
    m = ip ++ ["."%char; d1; d2] /\ ip <> [] /\
    Forall (fun c => isdigit c = true) ip /\ isdigit d1 = true /\ isdigit d2 = true.

(** The value of such a token, in hundredths. *)
Definition amount_value (m : pystr) (v : Q) : Prop :=
  exists ip d1 d2,
    m = ip ++ ["."%char; d1; d2] /\
    v = Qmake (100 * Z_of_digits ip + 10 * Z.of_nat (digit_val d1)
               + Z.of_nat (digit_val d2)) 100.

(** The leftmost, non-overlapping tokens of shape [P], left to right. *)
Inductive leftmost_matches (P : pystr -> Prop) : pystr -> list pystr -> Prop :=
| lm_end : leftmost_matches P [] []
| lm_hit : forall m rest ms,
    P m -> m <> [] -> leftmost_matches P rest ms ->
    leftmost_matches P (m ++ rest) (m :: ms)
| lm_skip : forall c s ms,
    (forall m rest, c :: s = m ++ rest -> ~ P m) ->
    leftmost_matches P s ms ->
    leftmost_matches P (c :: s) ms.

Definition is_max_of (a : Q) (vs : list Q) : Prop :=
  In a vs /\ Forall (fun v => (v <= a)%Q) vs.

(** The line starts with an amount-like or date-like token. *)
Definition numeric_prefix (line : pystr) : Prop :=
  exists m rest, line = m ++ rest /\ Lang vendor_skip_re true m.

(** A line the vendor search does not skip. *)
Definition line_survives (line : pystr) : Prop :=
  ~ numeric_prefix line /\ 3 < length line /\
  ~ substring_ci (str "receipt") line /\ ~ substring_ci (str "tax") line.

(** [w] is the first whitespace-delimited word of [line]. *)
Definition first_word (line w : pystr) : Prop :=
  exists ws rest,
    line = ws ++ w ++ rest /\ whitespace_only ws /\ w <> [] /\
    Forall (fun c => isspace c = false) w /\
    (rest = [] \/ exists c rest', rest = c :: rest' /\ isspace c = true).

(** Some keyword of the list occurs in [text]. *)
Definition keyword_hit (keywords : list pystr) (text : pystr) : Prop :=
  exists k, In k keywords /\ substring k text.

(** No keyword of the taxonomy entry occurs in [text]. *)
Definition no_hit (text : pystr) (entry : pystr * list pystr) : Prop :=
  ~ keyword_hit (snd entry) text.

(** Patterns without [^] denote the same strings at every position. *)
Fixpoint bol_free (r : regex) : bool :=
  match r with
  | Rep _ _ _ => true
  | Cat r1 r2 => bol_free r1 && bol_free r2
  | Alt r1 r2 => bol_free r1 && bol_free r2
  | Bol => false
  end.

(** Each of the five patterns of [parse_expense_data] that is searched for
    begins with a digit or a letter. *)
Definition searched_patterns : list regex := amount_re :: date_patterns.

(** Every step of the [try] block goes through, leaving the remote sheet as
    [sheet']: the service is obtained, the four keys are present, and the
    request that appends the row [date, amount, vendor, category] to
    [Sheet1] is executed. *)
Definition export_succeeds (service remote : Type) (get : result service)
    (append : service -> append_request -> remote -> result remote)
    (expense_data : pydict) (spreadsheet_id : pystr) (before after : remote) : Prop :=
  exists srv d a v c,
    get = Ok srv /\
    dict_get expense_data (str "date") = Ok d /\
    dict_get expense_data (str "amount") = Ok a /\
    dict_get expense_data (str "vendor") = Ok v /\
    dict_get expense_data (str "category") = Ok c /\
    append srv {| spreadsheetId := spreadsheet_id;
                  range := str "Sheet1";
                  valueInputOption := str "USER_ENTERED";
                  insertDataOption := str "INSERT_ROWS";
                  body_values := [[d; a; v; c]] |} before = Ok after.

(** ** OCR wrappers, the upload section, credentials and the filter query *)

(** [s.endswith(suffix)]. *)
Definition endswith (suffix s : pystr) : bool := startswith (rev suffix) (rev s).

Definition TEMP_DIR : pystr := str "temp_uploads".

(** The paths that exist, files and directories alike. *)
Definition fs_exists (p : pystr) (fs : list pystr) : bool := existsb (str_eqb p) fs.

(** Creating [p] ([os.makedirs(_, exist_ok=True)], [open(_, "wb")]). *)
Definition fs_add (p : pystr) (fs : list pystr) : list pystr :=
  if fs_exists p fs then fs else fs ++ [p].

(** [os.remove(p)]. *)
Definition fs_remove (p : pystr) (fs : list pystr) : list pystr :=
  filter (fun q => negb (str_eqb p q)) fs.

Section Ocr.

(** [Image.open], [pytesseract.image_to_string] and
    [pdf2image.convert_from_path]. *)
Variable image : Type.
Variable image_open : pystr -> result image.
Variable image_to_string : image -> result pystr.
Variable convert_from_path : pystr -> result (list image).
Variable remote : Type.

(** Lines 103-109. *)
Definition extract_text_from_image (image_path : pystr) (st : app_state remote)
    : result (pystr * app_state remote) :=
  try_except
    (img <- image_open image_path ;;
     text <- image_to_string img ;;
     Ok (text, st))
    (fun e => Ok ([], st_show (UiErrorExn (str "Error extracting text: ") e) st)).

(** The [for img in images] loop of lines 115-116. *)
Fixpoint pdf_loop (images : list image) (text : pystr) : result pystr :=
  match images with
  | [] => Ok text
  | img :: rest =>
      page <- image_to_string img ;;
      pdf_loop rest (text ++ page ++ ["010"%char])
  end.

(** Lines 111-120. *)
Definition extract_text_from_pdf (pdf_path : pystr) (st : app_state remote)
    : result (pystr * app_state remote) :=
  try_except
    (images <- convert_from_path pdf_path ;;
     text <- pdf_loop images [] ;;
     Ok (text, st))
    (fun e => Ok ([], st_show (UiErrorExn (str "Error processing PDF: ") e) st)).

End Ocr.

Section Upload.

Variable now : datetime.
Variable pd_to_datetime : pystr -> result pd_value.
Variable service : Type.
Variable remote : Type.

(** [get_google_sheets_service()] called while the given paths exist: it
    looks for [token.json] and may write it, so it gives back the paths that
    exist afterwards together with its outcome. *)
Variable get_service : list pystr -> list pystr * result service.
Variable append_execute : service -> append_request -> remote -> result remote.
Variable image : Type.
Variable image_open : pystr -> result image.
Variable image_to_string : image -> result pystr.
Variable convert_from_path : pystr -> result (list image).

(** [os.path.join]. *)
Variable os_path_join : pystr -> pystr -> pystr.

(** Whether handling [raw_text] gets as far as the call of
    [export_to_google_sheets] at line 221, whose first step obtains the
    service: the text is not blank, the record has been extracted and the
    button is pressed. *)
Definition reaches_export (raw_text : pystr) (button : bool) : bool :=
  match strip raw_text with
  | [] => false
  | _ :: _ =>
      match parse_expense_data now pd_to_datetime raw_text with
      | Ok _ => button
      | Raise _ => false
      end
  end.

(** Lines 183-227: the file is written under [TEMP_DIR], read back by the
    OCR wrapper its extension selects, handled, and removed in the [finally]
    clause. The result pairs the paths that exist afterwards with the
    outcome of the [try] block. Between the writing of the file and the
    [finally] clause only the export touches files, when it obtains the
    service. Creating the directory, writing the file and removing it are
    taken to succeed, and so is the insertion of the row. *)
Definition upload_section (uploaded_file : option pystr) (button : bool)
    (fs : list pystr) (st : app_state remote)
    : list pystr * result (app_state remote) :=
  match uploaded_file with
  | None => (fs, Ok st)
  | Some name =>
      let fs1 := fs_add TEMP_DIR fs in
      let filepath := os_path_join TEMP_DIR name in
      let fs2 := fs_add filepath fs1 in
      let ocr :=
        if endswith (str ".pdf") (lower name)
        then extract_text_from_pdf image_to_string convert_from_path filepath st
        else extract_text_from_image image_open image_to_string filepath st in
      let fs3 :=
        match ocr with
        | Ok r => if reaches_export (fst r) button then fst (get_service fs2) else fs2
        | Raise _ => fs2
        end in
      let body :=
        r <- ocr ;;
        handle_raw_text now pd_to_datetime (snd (get_service fs2)) append_execute
          (fst r) name button (snd r) in
      (if fs_exists filepath fs3 then fs_remove filepath fs3 else fs3, body)
  end.

End Upload.

(** What matters of a [google.oauth2.credentials.Credentials] object. *)
Record credentials : Type := mkcreds {
  cred_valid : bool;
  cred_expired : bool;
  cred_refresh_token : option pystr;
  cred_json : pystr
}.

Section Credentials.

(** [Credentials.from_authorized_user_file] on the content of [token.json],
    [creds.refresh(Request())], the flow of [InstalledAppFlow] up to
    [run_local_server], and [build('sheets', 'v4', credentials=creds)]. *)
Variable service : Type.
Variable from_authorized_user_file : pystr -> result credentials.
Variable refresh : credentials -> result credentials.
Variable run_local_server : result credentials.
Variable build : credentials -> result service.

(** Lines 66-69: the credentials just obtained are written to [token.json]
    and the service is built from them; an exception while obtaining them
    leaves the file alone. *)
Definition save_and_build (token : option pystr) (obtained : result credentials)
    : option pystr * result service :=
  match obtained with
  | Raise e => (token, Raise e)
  | Ok c => (Some (cred_json c), build c)
  end.

(** Lines 55-69. [token] is the content of [token.json], if the file exists;
    the result pairs its content afterwards with the outcome. *)
Definition get_google_sheets_service (token : option pystr)
    : option pystr * result service :=
  let loaded :=
    match token with
    | Some content => c <- from_authorized_user_file content ;; Ok (Some c)
    | None => Ok None
    end in
  match loaded with
  | Raise e => (token, Raise e)
  | Ok None => save_and_build token run_local_server
  | Ok (Some c) =>
      if negb (cred_valid c)
      then
        if cred_expired c && truthy (cred_refresh_token c)
        then save_and_build token (refresh c)
        else save_and_build token run_local_server
      else (token, build c)
  end.

End Credentials.

(** What [st.date_input] returns: a date, or a tuple of dates. *)
Inductive date_input : Type :=
| DateSingle (d : calendar_date)
| DateTuple (l : list calendar_date).

(** Lines 279-283. *)
Definition date_range_bounds (date_range : date_input)
    : option calendar_date * option calendar_date :=
  match date_range with
  | DateTuple [date_from; date_to] => (Some date_from, Some date_to)
  | _ => (None, None)
  end.

(** Lines 286-301: the query text and its parameters. *)
Definition build_filter_query (selected_category : pystr)
    (date_from date_to : option calendar_date) : pystr * list pystr :=
  let query := str "SELECT * FROM expenses WHERE 1=1" in
  let params := [] in
  let (query, params) :=
    if negb (str_eqb selected_category (str "all"))
    then (query ++ str " AND category = ?", params ++ [selected_category])
    else (query, params) in
  let (query, params) :=
    match date_from with
    | Some d => (query ++ str " AND date >= ?", params ++ [strftime_ymd d])
    | None => (query, params)
    end in
  let (query, params) :=
    match date_to with
    | Some d => (query ++ str " AND date <= ?", params ++ [strftime_ymd d])
    | None => (query, params)
    end in
  (query ++ str " ORDER BY date DESC", params).

(** The filter of lines 279-301 from the widgets' values. *)
Definition filter_query (selected_category : pystr) (date_range : date_input)
    : pystr * list pystr :=
  let (date_from, date_to) := date_range_bounds date_range in
  build_filter_query selected_category date_from date_to.

(** Comparison of strings code point by code point, as for [TEXT] values. *)
Fixpoint str_leb (a b : pystr) : bool :=
  match a, b with
  | [], _ => true
  | _ :: _, [] => false
  | x :: a', y :: b' =>
      if code x <? code y then true
      else if code y <? code x then false
      else str_leb a' b'
  end.

(** Chronological order of calendar dates. *)
Definition date_leb (d1 d2 : calendar_date) : bool :=
  if year d1 <? year d2 then true
  else if year d2 <? year d1 then false
  else if month d1 <? month d2 then true
  else if month d2 <? month d1 then false
  else day d1 <=? day d2.

(** What every stored row satisfies. *)
Definition row_ok (r : db_row) : Prop :=
  is_iso_date (row_date r) = true /\ (0 <= row_amount r)%Q /\
  row_vendor r <> [] /\ In (row_category r) (map fst EXPENSE_CATEGORIES).

(** ** Sample inputs *)

Definition sample_now : datetime := mkdatetime (mkdate 2026 11 3) 9 31 0 0.

Definition sample_pd (s : pystr) : result pd_value :=
  if str_eqb s (str "2024-01-05")
  then Ok (Timestamp (mkdate 2024 1 5))
  else Ok NaT.

(** A date parser that reads [0999-12-31] as 31 December of the year 999. *)
Definition sample_pd_early (s : pystr) : result pd_value :=
  if str_eqb s (str "0999-12-31")
  then Ok (Timestamp (mkdate 999 12 31))
  else Ok NaT.

Definition newline : pystr := ["010"%char].

Definition sample_receipt : pystr :=
  str "$12.50" ++ newline ++ str "RECEIPT" ++ newline ++ str "Joe's Diner"
    ++ newline ++ str "Tax: 1.00".

Definition sample_blank : pystr := str "  " ++ newline ++ ["009"%char] ++ str " ".

Definition sample_state : app_state (list (list cell)) :=
  {| db := []; ui := []; sheet := [] |}.

Definition sample_append (_ : unit) (rq : append_request) (rows : list (list cell))
  : result (list (list cell)) :=
  Ok (rows ++ body_values rq).

(** A service that is obtained from the browser flow, which leaves
    [token.json] behind. *)
Definition sample_get_service (fs : list pystr) : list pystr * result unit :=
  (fs_add (str "token.json") fs, Ok tt).

(** A file system where [os.path.join] puts a slash between its arguments,
    an image is the text printed on it, and every file opens as a page
    that reads [TOTAL 9.99]. *)
Definition sample_join (a b : pystr) : pystr := a ++ str "/" ++ b.

Definition sample_open (_ : pystr) : result pystr := Ok (str "TOTAL 9.99").

Definition sample_ocr (img : pystr) : result pystr := Ok img.

Definition sample_convert (_ : pystr) : result (list pystr) :=
  Ok [str "  "; []].

Definition sample_unreadable (A : Type) (_ : pystr) : result A := Raise OtherException.

Definition sample_creds : credentials :=
  {| cred_valid := true; cred_expired := false;
     cred_refresh_token := Some (str "r"); cred_json := str "{}" |}.

Definition sample_stale : credentials :=
  {| cred_valid := false; cred_expired := true;
     cred_refresh_token := Some (str "r"); cred_json := str "{old}" |}.

(** ** Proof automation *)

(** Boolean comparisons on [nat] as linear arithmetic. *)
Ltac bool_arith :=
  repeat (rewrite ?andb_true_iff, ?orb_true_iff, ?andb_false_iff, ?orb_false_iff,
            ?negb_true_iff, ?negb_false_iff,
            ?Nat.leb_le, ?Nat.leb_gt, ?Nat.ltb_lt, ?Nat.ltb_ge,
            ?Nat.eqb_eq, ?Nat.eqb_neq in *);
  lia.

(** Decide the comparison at the head of either side of an equation. *)
Ltac head_if :=
  match goal with
  | |- (if ?x <? ?y then _ else _) = _ => destruct (Nat.ltb_spec x y)
  | |- _ = (if ?x <? ?y then _ else _) => destruct (Nat.ltb_spec x y)
  end.

(** Split a conjunction into its parts, leaving implications alone. *)
Ltac splits := repeat match goal with |- _ /\ _ => split end.

(** ** Facts about characters and strings *)

Unset Implicit Arguments.

Lemma code_lt_256 : forall c, code c < 256.
Proof. intro c. unfold code. apply nat_ascii_bounded. Qed.

Lemma isdigit_not_space : forall c, isdigit c = true -> isspace c = false.
Proof. intros c H. unfold isdigit, isspace in *. bool_arith. Qed.

Lemma isalpha_not_space : forall c, isalpha_ascii c = true -> isspace c = false.
Proof. intros c H. unfold isalpha_ascii, isspace in *. bool_arith. Qed.

Lemma is_char_eq : forall a c, is_char a c = true <-> c = a.
Proof.
  intros a c. unfold is_char. rewrite Ascii.eqb_eq. split; congruence.
Qed.

Lemma is_nil_app : forall (A : Type) (l1 l2 : list A),
  is_nil (l1 ++ l2) = is_nil l1 && is_nil l2.
Proof. intros A [| x l1] l2; reflexivity. Qed.

Lemma is_nil_true : forall (A : Type) (l : list A), is_nil l = true <-> l = [].
Proof. intros A [| x l]; simpl; split; congruence. Qed.

Lemma lstrip_whitespace_only : forall s, whitespace_only s -> lstrip s = [].
Proof.
  induction s as [| c s IH]; intro H; simpl.
  - reflexivity.
  - inversion H as [| ? ? Hc Hs]; subst. rewrite Hc. auto.
Qed.

Lemma lstrip_nil_whitespace_only : forall s, lstrip s = [] -> whitespace_only s.
Proof.
  induction s as [| c s IH]; intro H; simpl in *.
  - constructor.
  - destruct (isspace c) eqn:Hc.
    + constructor; [assumption | apply IH; assumption].
    + discriminate.
Qed.

Lemma lstrip_head : forall s c s', lstrip s = c :: s' -> isspace c = false.
Proof.
  induction s as [| a s IH]; intros c s' H; simpl in H.
  - discriminate.
  - destruct (isspace a) eqn:Ha.
    + eauto.
    + inversion H; subst; assumption.
Qed.

Lemma lstrip_snoc : forall s c,
  isspace c = false -> lstrip (s ++ [c]) = lstrip s ++ [c].
Proof.
  induction s as [| a s IH]; intros c Hc; simpl.
  - rewrite Hc. reflexivity.
  - destruct (isspace a); auto.
Qed.

Lemma rstrip_head : forall c s,
  isspace c = false -> exists s', rstrip (c :: s) = c :: s'.
Proof.
  intros c s Hc. unfold rstrip. simpl.
  rewrite lstrip_snoc by assumption.
  rewrite rev_app_distr. simpl. eauto.
Qed.

(** A stripped string is empty or starts with a character that is not
    whitespace. *)
Lemma strip_head : forall s c s', strip s = c :: s' -> isspace c = false.
Proof.
  intros s c s' H. unfold strip in H.
  destruct (lstrip s) as [| a t] eqn:Hl.
  - discriminate.
  - pose proof (lstrip_head _ _ _ Hl) as Ha.
    destruct (rstrip_head a t Ha) as [u Hu].
    rewrite Hu in H. inversion H; subst; assumption.
Qed.

Lemma strip_whitespace_only : forall s, whitespace_only s -> strip s = [].
Proof.
  intros s H. unfold strip. rewrite lstrip_whitespace_only by assumption.
  reflexivity.
Qed.

Lemma strip_nil_whitespace_only : forall s, strip s = [] -> whitespace_only s.
Proof.
  intros s H. unfold strip in H.
  destruct (lstrip s) as [| a t] eqn:Hl.
  - apply lstrip_nil_whitespace_only; assumption.
  - pose proof (lstrip_head _ _ _ Hl) as Ha.
    destruct (rstrip_head a t Ha) as [u Hu].
    rewrite Hu in H. discriminate.
Qed.

(** ** The matcher against the denotation of patterns *)

Lemma within_dec : forall hi n, within hi (S n) -> room hi = true /\ within (dec hi) n.
Proof.
  intros [h |] n H; simpl in *.
  - destruct h; simpl; [lia | split; [reflexivity | lia]].
  - auto.
Qed.

Lemma room_within : forall hi n, room hi = true -> within (dec hi) n -> within hi (S n).
Proof.
  intros [h |] n Hr H; simpl in *.
  - destruct h; simpl in *; [discriminate | lia].
  - exact I.
Qed.

Section ExecFacts.
Context {A : Type}.
Implicit Types (k : bool -> pystr -> option A).

Lemma rep_stop_sound : forall c lo hi bos s k x,
  (if lo =? 0 then k bos s else None) = Some x ->
  exists m rest,
    s = m ++ rest /\ Lang (Rep c lo hi) bos m /\ k (bos && is_nil m) rest = Some x.
Proof.
  intros c lo hi bos s k x H.
  destruct (lo =? 0) eqn:Hlo; [| discriminate].
  apply Nat.eqb_eq in Hlo. subst lo.
  exists [], s. simpl. rewrite andb_true_r.
  repeat split; auto. destruct hi; simpl; lia.
Qed.

Lemma rep_sound : forall c s lo hi bos k x,
  rep c lo hi bos s k = Some x ->
  exists m rest,
    s = m ++ rest /\ Lang (Rep c lo hi) bos m /\ k (bos && is_nil m) rest = Some x.
Proof.
  induction s as [| a s IH]; intros lo hi bos k x H; simpl in H.
  - eapply rep_stop_sound; eassumption.
  - destruct (c a && room hi) eqn:Hc.
    + destruct (rep c (pred lo) (dec hi) false s k) as [y |] eqn:Hr.
      * inversion H; subst y. clear H.
        apply IH in Hr. destruct Hr as (m & rest & Hs & (Hall & Hlo & Hhi) & Hk).
        apply andb_prop in Hc. destruct Hc as [Hca Hroom].
        exists (a :: m), rest. simpl. rewrite andb_false_r.
        repeat split.
        -- congruence.
        -- constructor; assumption.
        -- lia.
        -- apply room_within; assumption.
        -- simpl in Hk. exact Hk.
      * eapply rep_stop_sound; eassumption.
    + eapply rep_stop_sound; eassumption.
Qed.

Lemma rep_complete : forall c m lo hi bos rest k x,
  Lang (Rep c lo hi) bos m ->
  k (bos && is_nil m) rest = Some x ->
  exists y, rep c lo hi bos (m ++ rest) k = Some y.
Proof.
  induction m as [| a m IH]; intros lo hi bos rest k x (Hall & Hlo & Hhi) Hk.
  - simpl in *. rewrite andb_true_r in Hk.
    assert (Hz : (lo =? 0) = true) by (apply Nat.eqb_eq; lia).
    destruct rest as [| b rest]; simpl; rewrite Hz.
    + eauto.
    + destruct (c b && room hi); [| eauto].
      destruct (rep c (pred lo) (dec hi) false rest k); eauto.
  - simpl in *. rewrite andb_false_r in Hk.
    inversion Hall as [| ? ? Ha Hm]; subst.
    destruct (within_dec hi _ Hhi) as [Hroom Hdec].
    rewrite Ha, Hroom. simpl.
    destruct (IH (pred lo) (dec hi) false rest k x) as [y Hy].
    + repeat split; [assumption | lia | assumption].
    + exact Hk.
    + rewrite Hy. eauto.
Qed.

Lemma exec_sound : forall r bos s k x,
  exec r bos s k = Some x ->
  exists m rest, s = m ++ rest /\ Lang r bos m /\ k (bos && is_nil m) rest = Some x.
Proof.
  induction r as [c lo hi | r1 IH1 r2 IH2 | r1 IH1 r2 IH2 |];
    intros bos s k x H; simpl in H.
  - apply rep_sound; assumption.
  - apply IH1 in H. destruct H as (m1 & rest1 & Hs1 & HL1 & H).
    apply IH2 in H. destruct H as (m2 & rest & Hs2 & HL2 & Hk).
    exists (m1 ++ m2), rest. repeat split.
    + subst. rewrite app_assoc. reflexivity.
    + simpl. exists m1, m2. auto.
    + rewrite is_nil_app, andb_assoc. exact Hk.
  - destruct (exec r1 bos s k) as [y |] eqn:H1.
    + inversion H; subst y. apply IH1 in H1.
      destruct H1 as (m & rest & Hs & HL & Hk).
      exists m, rest. simpl. auto.
    + apply IH2 in H. destruct H as (m & rest & Hs & HL & Hk).
      exists m, rest. simpl. auto.
  - destruct bos; [| discriminate].
    exists [], s. simpl. auto.
Qed.

Lemma exec_complete : forall r bos m rest k x,
  Lang r bos m ->
  k (bos && is_nil m) rest = Some x ->
  exists y, exec r bos (m ++ rest) k = Some y.
Proof.
  induction r as [c lo hi | r1 IH1 r2 IH2 | r1 IH1 r2 IH2 |];
    intros bos m rest k x HL Hk; simpl.
  - eapply rep_complete; eassumption.
  - simpl in HL. destruct HL as (m1 & m2 & Hm & HL1 & HL2). subst m.
    rewrite is_nil_app, andb_assoc in Hk.
    destruct (IH2 _ _ rest k x HL2 Hk) as [y Hy].
    rewrite <- app_assoc.
    eapply IH1 with (k := fun b s' => exec r2 b s' k); eassumption.
  - simpl in HL. destruct HL as [HL | HL].
    + destruct (IH1 _ _ rest k x HL Hk) as [y Hy]. rewrite Hy. eauto.
    + destruct (exec r1 bos (m ++ rest) k); [eauto |].
      eapply IH2; eassumption.
  - simpl in HL. destruct HL as [Hb Hm]. subst. simpl in *. eauto.
Qed.
End ExecFacts.

Lemma match_here_sound : forall r bos s m rest,
  match_here r bos s = Some (m, rest) -> s = m ++ rest /\ Lang r bos m.
Proof.
  intros r bos s m rest H. unfold match_here in H.
  destruct (exec r bos s (fun _ rest0 => Some rest0)) as [rest0 |] eqn:He;
    [| discriminate].
  apply exec_sound in He. destruct He as (m0 & rest1 & Hs & HL & Hk).
  inversion Hk; subst rest1. inversion H; subst rest. clear H Hk.
  subst s. rewrite length_app, Nat.add_sub.
  rewrite firstn_app, Nat.sub_diag, firstn_all. simpl. rewrite app_nil_r.
  auto.
Qed.

Lemma match_here_none : forall r bos s,
  match_here r bos s = None ->
  forall m rest, s = m ++ rest -> ~ Lang r bos m.
Proof.
  intros r bos s H m rest Hs HL. unfold match_here in H.
  destruct (exec_complete r bos m rest (fun _ rest0 => Some rest0) rest HL eq_refl)
    as [y Hy].
  subst s. rewrite Hy in H. discriminate.
Qed.

Lemma match_here_some : forall r bos m rest,
  Lang r bos m -> exists m' rest', match_here r bos (m ++ rest) = Some (m', rest').
Proof.
  intros r bos m rest HL.
  destruct (match_here r bos (m ++ rest)) as [[m' rest'] |] eqn:H.
  - eauto.
  - exfalso. eapply match_here_none; eauto.
Qed.

(** [re.match] finds a match exactly when some prefix is in the language. *)
Lemma re_match_none_iff : forall r s,
  re_match r s = None <-> (forall m rest, s = m ++ rest -> ~ Lang r true m).
Proof.
  intros r s. unfold re_match. split.
  - intro H. destruct (match_here r true s) as [[m rest] |] eqn:Hm.
    + discriminate.
    + eapply match_here_none; eassumption.
  - intro H. destruct (match_here r true s) as [[m rest] |] eqn:Hm.
    + apply match_here_sound in Hm. destruct Hm as [Hs HL].
      exfalso. eapply H; eassumption.
    + reflexivity.
Qed.

(** [re.search] returns an occurrence, and the leftmost one. *)
Lemma search_from_some : forall r s bos m,
  search_from r bos s = Some m ->
  exists pre post,
    s = pre ++ m ++ post /\ Lang r (bos && is_nil pre) m /\
    (forall pre' m' post',
        s = pre' ++ m' ++ post' -> Lang r (bos && is_nil pre') m' ->
        length pre <= length pre').
Proof.
  intros r. induction s as [| a s IH]; intros bos m H; simpl in H.
  - destruct (match_here r bos []) as [[m0 rest] |] eqn:Hm; [| discriminate].
    inversion H; subst m0. apply match_here_sound in Hm. destruct Hm as [Hs HL].
    exists [], rest. simpl. rewrite andb_true_r. repeat split; auto.
    intros. lia.
  - destruct (match_here r bos (a :: s)) as [[m0 rest] |] eqn:Hm.
    + inversion H; subst m0. apply match_here_sound in Hm. destruct Hm as [Hs HL].
      exists [], rest. simpl. rewrite andb_true_r. repeat split; auto.
      intros. lia.
    + apply IH in H. destruct H as (pre & post & Hs & HL & Hleft).
      exists (a :: pre), post. simpl. rewrite andb_false_r in *.
      repeat split.
      * congruence.
      * exact HL.
      * intros pre' m' post' Hs' HL'.
        destruct pre' as [| a' pre'].
        -- exfalso. simpl in Hs', HL'. rewrite andb_true_r in HL'.
           eapply match_here_none; eassumption.
        -- simpl in Hs'. inversion Hs' as [[Ha Hs'']]. simpl.
           apply le_n_S. eapply Hleft; [eassumption |].
           simpl in HL'. rewrite andb_false_r in HL'. exact HL'.
Qed.

Lemma search_from_none : forall r s bos,
  search_from r bos s = None ->
  forall pre m post, s = pre ++ m ++ post -> ~ Lang r (bos && is_nil pre) m.
Proof.
  intros r. induction s as [| a s IH]; intros bos H pre m post Hs HL; simpl in H.
  - destruct (match_here r bos []) as [[m0 rest] |] eqn:Hm; [discriminate |].
    destruct pre; [| discriminate]. simpl in *. rewrite andb_true_r in HL.
    eapply match_here_none; eassumption.
  - destruct (match_here r bos (a :: s)) as [[m0 rest] |] eqn:Hm; [discriminate |].
    destruct pre as [| a' pre].
    + simpl in *. rewrite andb_true_r in HL. eapply match_here_none; eassumption.
    + simpl in Hs. inversion Hs as [[Ha Hs']].
      simpl in HL. rewrite andb_false_r in HL.
      eapply (IH false H pre m post); [assumption |].
      simpl. exact HL.
Qed.

Lemma re_search_some : forall r text m,
  re_search r text = Some m ->
  exists pre, occurs r text pre m /\
    (forall pre' m', occurs r text pre' m' -> length pre <= length pre').
Proof.
  intros r text m H. apply search_from_some in H.
  destruct H as (pre & post & Hs & HL & Hleft).
  exists pre. split.
  - exists post. auto.
  - intros pre' m' (post' & Hs' & HL'). eapply Hleft; eassumption.
Qed.

Lemma re_search_none : forall r text,
  re_search r text = None -> ~ matches_anywhere r text.
Proof.
  intros r text H (pre & m & post & Hs & HL).
  eapply search_from_none; eauto.
Qed.


Lemma Lang_bol_free : forall r, bol_free r = true ->
  forall b b' m, Lang r b m -> Lang r b' m.
Proof.
  induction r as [c lo hi | r1 IH1 r2 IH2 | r1 IH1 r2 IH2 |];
    intros Hf b b' m HL; simpl in *.
  - exact HL.
  - apply andb_prop in Hf. destruct Hf as [H1 H2].
    destruct HL as (m1 & m2 & Hm & HL1 & HL2).
    exists m1, m2. repeat split; eauto.
  - apply andb_prop in Hf. destruct Hf as [H1 H2].
    destruct HL as [HL | HL]; eauto.
  - discriminate.
Qed.

Lemma findall_from_skip : forall r p rest b,
  findall_from r b (length p) (p ++ rest) = findall_from r (b && is_nil p) 0 rest.
Proof.
  intros r. induction p as [| a p IH]; intros rest b.
  - simpl length. simpl app. simpl is_nil. rewrite andb_true_r. reflexivity.
  - simpl length. simpl app. simpl is_nil. rewrite andb_false_r.
    change (findall_from r b (S (length p)) (a :: p ++ rest))
      with (findall_from r false (length p) (p ++ rest)).
    rewrite IH. reflexivity.
Qed.

Lemma findall_from_nil : forall r b,
  (forall m, Lang r b m -> m <> []) -> findall_from r b 0 [] = [].
Proof.
  intros r b Hne. simpl.
  destruct (match_here r b []) as [[m rest] |] eqn:Hm; [| reflexivity].
  apply match_here_sound in Hm. destruct Hm as [Hs HL].
  apply Hne in HL. destruct m; [congruence | discriminate].
Qed.

Lemma findall_from_hit : forall r b s m rest,
  match_here r b s = Some (m, rest) -> m <> [] ->
  findall_from r b 0 s = m :: findall_from r false 0 rest.
Proof.
  intros r b s m rest Hm Hne.
  pose proof (match_here_sound _ _ _ _ _ Hm) as [Hs HL].
  destruct m as [| c m']; [congruence |].
  subst s. simpl app in *.
  change (findall_from r b 0 (c :: m' ++ rest))
    with (match match_here r b (c :: m' ++ rest) with
          | Some (m0, _) => m0 :: findall_from r false (pred (length m0)) (m' ++ rest)
          | None => findall_from r false 0 (m' ++ rest)
          end).
  rewrite Hm. simpl pred. rewrite findall_from_skip. reflexivity.
Qed.

Lemma findall_from_miss : forall r b c s,
  match_here r b (c :: s) = None ->
  findall_from r b 0 (c :: s) = findall_from r false 0 s.
Proof.
  intros r b c s Hm.
  change (findall_from r b 0 (c :: s))
    with (match match_here r b (c :: s) with
          | Some (m0, _) => m0 :: findall_from r false (pred (length m0)) s
          | None => findall_from r false 0 s
          end).
  rewrite Hm. reflexivity.
Qed.

(** [re.findall] lists the leftmost non-overlapping occurrences. *)
Lemma findall_from_leftmost : forall r,
  bol_free r = true ->
  (forall b m, Lang r b m -> m <> []) ->
  forall n s b, length s <= n ->
    leftmost_matches (Lang r false) s (findall_from r b 0 s).
Proof.
  intros r Hf Hne. induction n as [| n IH]; intros s b Hlen.
  - destruct s; [| simpl in Hlen; lia].
    rewrite findall_from_nil by (apply Hne). constructor.
  - destruct s as [| c s].
    + rewrite findall_from_nil by (apply Hne). constructor.
    + destruct (match_here r b (c :: s)) as [[m rest] |] eqn:Hm.
      * pose proof (match_here_sound _ _ _ _ _ Hm) as [Hs HL].
        pose proof (Hne _ _ HL) as Hm0.
        rewrite findall_from_hit with (m := m) (rest := rest) by assumption. rewrite Hs.
        apply lm_hit.
        -- eapply Lang_bol_free; eassumption.
        -- assumption.
        -- apply IH.
           assert (Hl : length (c :: s) = length m + length rest)
             by (rewrite Hs; apply length_app).
           destruct m; [congruence |]. simpl in *. lia.
      * rewrite findall_from_miss by assumption.
        apply lm_skip.
        -- intros m rest Hs HL.
           eapply match_here_none; [eassumption | eassumption |].
           eapply Lang_bol_free; eassumption.
        -- apply IH. simpl in Hlen. lia.
Qed.

Lemma leftmost_matches_ext : forall (P Q : pystr -> Prop),
  (forall m, P m <-> Q m) ->
  forall s ms, leftmost_matches P s ms -> leftmost_matches Q s ms.
Proof.
  intros P Q HPQ s ms H. induction H.
  - constructor.
  - apply lm_hit; [apply HPQ; assumption | assumption | assumption].
  - apply lm_skip; [| assumption].
    intros m rest Hs HQ. apply HPQ in HQ. eapply H; eassumption.
Qed.

Lemma leftmost_matches_Forall : forall (P : pystr -> Prop) s ms,
  leftmost_matches P s ms -> Forall P ms.
Proof.
  intros P s ms H. induction H; auto.
Qed.

Lemma leftmost_matches_none : forall (P : pystr -> Prop) s ms,
  leftmost_matches P s ms ->
  (forall pre m post, s = pre ++ m ++ post -> ~ P m) -> ms = [].
Proof.
  intros P s ms H. induction H; intro Hno.
  - reflexivity.
  - exfalso. apply (Hno [] m rest); [reflexivity | assumption].
  - apply IHleftmost_matches.
    intros pre m post Hs. apply (Hno (c :: pre) m post). simpl. congruence.
Qed.

(** ** Amounts *)

Lemma Lang_chr : forall a b m, Lang (chr a) b m <-> m = [a].
Proof.
  intros a b m. unfold chr. simpl. split.
  - intros (Hall & Hlo & Hhi).
    destruct m as [| x [| y m]]; simpl in *; try lia.
    inversion Hall as [| ? ? Hx _]; subst. apply is_char_eq in Hx. congruence.
  - intro H. subst m. repeat split; simpl; auto.
    constructor; [apply is_char_eq; reflexivity | constructor].
Qed.

Lemma isdigit_not_dot : forall c, isdigit c = true -> Ascii.eqb c "." = false.
Proof.
  intros c H. destruct (Ascii.eqb c ".") eqn:E; [| reflexivity].
  apply Ascii.eqb_eq in E. subst c. discriminate.
Qed.

Lemma amount_shaped_Lang : forall b m, Lang amount_re b m <-> amount_shaped m.
Proof.
  intros b m. unfold amount_re, amount_shaped. split.
  - intros (ip & m2 & Hm & (Hall & Hlo & _) & (m3 & m4 & Hm2 & H3 & H4)).
    apply Lang_chr in H3. subst m3.
    destruct H4 as (Hall4 & Hlo4 & Hhi4). simpl in Hhi4.
    destruct m4 as [| d1 [| d2 [| d3 m4]]]; simpl in *; try lia.
    inversion Hall4 as [| ? ? Hd1 Hall4']; subst.
    inversion Hall4' as [| ? ? Hd2 _]; subst.
    exists ip, d1, d2. repeat split; auto.
    intro; subst ip; simpl in Hlo; lia.
  - intros (ip & d1 & d2 & Hm & Hne & Hall & Hd1 & Hd2).
    exists ip, ["."%char; d1; d2]. repeat split; auto.
    + destruct ip; [congruence | simpl; lia].
    + exists ["."%char], [d1; d2]. repeat split; simpl; auto.
Qed.

Lemma amount_shaped_nonempty : forall m, amount_shaped m -> m <> [].
Proof.
  intros m (ip & d1 & d2 & Hm & _) E. subst m.
  destruct ip; discriminate.
Qed.

Lemma split_on_no_sep : forall sep s,
  Forall (fun c => Ascii.eqb c sep = false) s -> split_on sep s = [s].
Proof.
  intros sep. induction s as [| c s IH]; intro H; simpl.
  - reflexivity.
  - inversion H as [| ? ? Hc Hs]; subst. rewrite Hc, IH by assumption. reflexivity.
Qed.

Lemma split_on_app_sep : forall sep s1 s2,
  Forall (fun c => Ascii.eqb c sep = false) s1 ->
  split_on sep (s1 ++ sep :: s2) = s1 :: split_on sep s2.
Proof.
  intros sep. induction s1 as [| c s1 IH]; intros s2 H; simpl.
  - rewrite Ascii.eqb_refl. reflexivity.
  - inversion H as [| ? ? Hc Hs]; subst. rewrite Hc, IH by assumption. reflexivity.
Qed.

Lemma Z_of_digits_snoc : forall s c,
  Z_of_digits (s ++ [c]) = (10 * Z_of_digits s + Z.of_nat (digit_val c))%Z.
Proof.
  intros s c. unfold Z_of_digits. rewrite fold_left_app. reflexivity.
Qed.

Lemma Z_of_digits_nonneg : forall s, (0 <= Z_of_digits s)%Z.
Proof.
  intro s. induction s as [| c s IH] using rev_ind.
  - simpl. unfold Z_of_digits. simpl. lia.
  - rewrite Z_of_digits_snoc. lia.
Qed.

Lemma Forall_forallb : forall (A : Type) (f : A -> bool) l,
  Forall (fun a => f a = true) l -> forallb f l = true.
Proof.
  intros A f l H. apply forallb_forall. apply Forall_forall. exact H.
Qed.

(** [float] reads a token of the amount shape as its value in hundredths. *)
Lemma py_float_amount : forall m,
  amount_shaped m ->
  exists v, py_float m = Ok v /\ amount_value m v /\ (0 <= v)%Q.
Proof.
  intros m (ip & d1 & d2 & Hm & Hne & Hall & Hd1 & Hd2).
  exists (Qmake (100 * Z_of_digits ip + 10 * Z.of_nat (digit_val d1)
                 + Z.of_nat (digit_val d2)) 100).
  split; [| split].
  - unfold py_float. subst m.
    rewrite split_on_app_sep.
    2:{ eapply Forall_impl; [| exact Hall]. intros; apply isdigit_not_dot; assumption. }
    rewrite split_on_no_sep.
    2:{ repeat constructor; apply isdigit_not_dot; assumption. }
    rewrite (Forall_forallb _ _ _ Hall).
    cbn [forallb]. rewrite Hd1, Hd2.
    replace (length (ip ++ [d1; d2]) =? 0) with false.
    2:{ symmetry. apply Nat.eqb_neq. rewrite length_app. simpl. lia. }
    assert (Hp : pow10 (length [d1; d2]) = 100%positive) by reflexivity.
    rewrite Hp. cbn [andb negb].
    change [d1; d2] with ([d1] ++ [d2]). rewrite app_assoc.
    rewrite !Z_of_digits_snoc.
    do 2 f_equal. lia.
  - exists ip, d1, d2. auto.
  - unfold Qle. cbn [Qnum Qden]. pose proof (Z_of_digits_nonneg ip). lia.
Qed.

Lemma mapM_Forall2 : forall (A B : Type) (f : A -> result B) (P : A -> B -> Prop) l,
  Forall (fun a => exists b, f a = Ok b /\ P a b) l ->
  exists bs, mapM f l = Ok bs /\ Forall2 P l bs.
Proof.
  intros A B f P. induction l as [| a l IH]; intro H.
  - exists []. simpl. split; [reflexivity | constructor].
  - inversion H as [| ? ? (b & Hb & HP) Hl]; subst.
    destruct (IH Hl) as (bs & Hbs & HF).
    exists (b :: bs). simpl. rewrite Hb. simpl. rewrite Hbs. simpl.
    split; [reflexivity | constructor; assumption].
Qed.

Lemma qmax_cases : forall a b,
  (qmax a b = a \/ qmax a b = b) /\ (a <= qmax a b)%Q /\ (b <= qmax a b)%Q.
Proof.
  intros a b. unfold qmax. destruct (Qle_bool a b) eqn:E.
  - apply Qle_bool_iff in E. repeat split; auto. apply Qle_refl.
  - assert (~ (a <= b)%Q) by (intro H; apply Qle_bool_iff in H; congruence).
    repeat split; auto; [apply Qle_refl | apply Qlt_le_weak, Qnot_le_lt; assumption].
Qed.

Lemma fold_qmax_is_max : forall l x, is_max_of (fold_left qmax l x) (x :: l).
Proof.
  induction l as [| y l IH]; intro x; simpl.
  - split; [left; reflexivity | constructor; [apply Qle_refl | constructor]].
  - destruct (IH (qmax x y)) as [Hin Hall].
    destruct (qmax_cases x y) as (Hc & Hx & Hy).
    inversion Hall as [| ? ? Hq Hl]; subst.
    split.
    + destruct Hin as [Hin | Hin].
      * simpl. destruct Hc as [Hc | Hc]; [left | right; left]; congruence.
      * right; right; assumption.
    + constructor; [eapply Qle_trans; eassumption |].
      constructor; [eapply Qle_trans; eassumption | assumption].
Qed.

Lemma np_max_is_max : forall l, l <> [] -> exists a, np_max l = Ok a /\ is_max_of a l.
Proof.
  intros [| x l] H; [congruence |].
  exists (fold_left qmax l x). split; [reflexivity | apply fold_qmax_is_max].
Qed.

Lemma digit_run_unique : forall ip1 ip2 t1 t2,
  Forall (fun c => isdigit c = true) ip1 ->
  Forall (fun c => isdigit c = true) ip2 ->
  ip1 ++ "."%char :: t1 = ip2 ++ "."%char :: t2 ->
  ip1 = ip2 /\ t1 = t2.
Proof.
  induction ip1 as [| a ip1 IH]; intros ip2 t1 t2 H1 H2 E.
  - destruct ip2 as [| b ip2]; simpl in E.
    + inversion E. auto.
    + inversion E; subst b. inversion H2 as [| ? ? Hb _]; subst. discriminate.
  - destruct ip2 as [| b ip2]; simpl in E.
    + inversion E; subst a. inversion H1 as [| ? ? Ha _]; subst. discriminate.
    + inversion E; subst b.
      inversion H1; subst. inversion H2; subst.
      destruct (IH ip2 t1 t2) as [Hi Ht]; auto. subst. auto.
Qed.

(** At a given position there is at most one token of the amount shape. *)
Lemma amount_shaped_prefix_unique : forall m1 r1 m2 r2,
  amount_shaped m1 -> amount_shaped m2 -> m1 ++ r1 = m2 ++ r2 ->
  m1 = m2 /\ r1 = r2.
Proof.
  intros m1 r1 m2 r2 (ip1 & a1 & b1 & Hm1 & _ & Hd1 & _)
         (ip2 & a2 & b2 & Hm2 & _ & Hd2 & _) E.
  subst m1 m2. rewrite <- !app_assoc in E. simpl in E.
  destruct (digit_run_unique _ _ _ _ Hd1 Hd2 E) as [Hi Ht].
  inversion Ht; subst. auto.
Qed.

(** The leftmost non-overlapping tokens of a text are determined by it. *)
Lemma leftmost_amounts_unique : forall s ms1,
  leftmost_matches amount_shaped s ms1 ->
  forall ms2, leftmost_matches amount_shaped s ms2 -> ms1 = ms2.
Proof.
  intros s ms1 H1. induction H1 as [| m rest ms Hm Hne H1 IH | c s ms Hno H1 IH];
    intros ms2 H2.
  - inversion H2 as [| m2 rest2 ms2' Hm2 Hne2 H2' E | ]; subst.
    + reflexivity.
    + destruct m2; [congruence | discriminate].
  - remember (m ++ rest) as s eqn:Es.
    destruct H2 as [| m2 rest2 ms2' Hm2 Hne2 H2' | c s' ms2' Hno H2'].
    + destruct m; [congruence | discriminate].
    + destruct (amount_shaped_prefix_unique _ _ _ _ Hm2 Hm Es) as [E1 E2].
      subst. f_equal. apply IH. exact H2'.
    + exfalso. eapply Hno; eassumption.
  - remember (c :: s) as s0 eqn:Es.
    destruct H2 as [| m2 rest2 ms2' Hm2 Hne2 H2' | c' s' ms2' Hno' H2'].
    + discriminate.
    + exfalso. eapply Hno; [reflexivity | exact Hm2].
    + inversion Es; subst. apply IH. exact H2'.
Qed.

Lemma amount_value_functional : forall m v1 v2,
  amount_value m v1 -> amount_value m v2 -> v1 = v2.
Proof.
  intros m v1 v2 (ip1 & a1 & b1 & Hm1 & Hv1) (ip2 & a2 & b2 & Hm2 & Hv2).
  subst m.
  change (ip1 ++ ["."%char; a1; b1]) with (ip1 ++ ["."%char; a1] ++ [b1]) in Hm2.
  change (ip2 ++ ["."%char; a2; b2]) with (ip2 ++ ["."%char; a2] ++ [b2]) in Hm2.
  rewrite !app_assoc in Hm2. apply app_inj_tail in Hm2. destruct Hm2 as [Hm2 Hb].
  change (ip1 ++ ["."%char; a1]) with (ip1 ++ ["."%char] ++ [a1]) in Hm2.
  change (ip2 ++ ["."%char; a2]) with (ip2 ++ ["."%char] ++ [a2]) in Hm2.
  rewrite !app_assoc in Hm2. apply app_inj_tail in Hm2. destruct Hm2 as [Hm2 Ha].
  apply app_inj_tail in Hm2. destruct Hm2 as [Hi _].
  subst. reflexivity.
Qed.

Lemma amount_values_functional : forall ms vs1 vs2,
  Forall2 amount_value ms vs1 -> Forall2 amount_value ms vs2 -> vs1 = vs2.
Proof.
  intros ms vs1 vs2 H1. revert vs2.
  induction H1 as [| m v1 ms vs1 Hv1 H1 IH]; intros vs2 H2; inversion H2; subst.
  - reflexivity.
  - f_equal; [eapply amount_value_functional; eassumption | apply IH; assumption].
Qed.

(** Lines 124-125, as a whole. *)
Lemma extract_total_amount_spec : forall text,
  exists ms vs a,
    leftmost_matches amount_shaped (replace_char "," "." text) ms /\
    Forall2 amount_value ms vs /\
    Forall (fun v => (0 <= v)%Q) vs /\
    extract_total_amount text = Ok a /\
    (ms = [] -> a = 0%Q) /\
    (ms <> [] -> is_max_of a vs).
Proof.
  intro text. unfold extract_total_amount, extract_amounts, re_findall.
  set (t := replace_char "," "." text).
  assert (Hscan : leftmost_matches amount_shaped t (findall_from amount_re true 0 t)).
  { apply leftmost_matches_ext with (P := Lang amount_re false).
    - intro m. apply amount_shaped_Lang.
    - apply findall_from_leftmost with (n := length t); [reflexivity | | lia].
      intros b m HL. apply amount_shaped_nonempty.
      apply (amount_shaped_Lang b). exact HL. }
  set (ms := findall_from amount_re true 0 t) in *.
  assert (HF : Forall (fun m => exists v, py_float m = Ok v /\
                                  (amount_value m v /\ (0 <= v)%Q)) ms).
  { eapply Forall_impl; [| eapply leftmost_matches_Forall; exact Hscan].
    intros m Hm. destruct (py_float_amount m Hm) as (v & H1 & H2 & H3). eauto. }
  destruct (mapM_Forall2 _ _ py_float (fun m v => amount_value m v /\ (0 <= v)%Q) ms HF)
    as (vs & Hvs & HF2).
  assert (Hval : Forall2 amount_value ms vs).
  { clear - HF2. induction HF2; constructor; tauto. }
  assert (Hpos : Forall (fun v => (0 <= v)%Q) vs).
  { clear - HF2. induction HF2; constructor; tauto. }
  rewrite Hvs. simpl.
  destruct vs as [| v vs].
  - exists ms, [], 0%Q.
    assert (Hnil : ms = []) by (inversion Hval; reflexivity).
    split; [exact Hscan |]. split; [exact Hval |]. split; [exact Hpos |].
    split; [reflexivity |]. split; [reflexivity |].
    intro Hne. congruence.
  - destruct (np_max_is_max (v :: vs)) as (a & Ha & Hmax); [discriminate |].
    exists ms, (v :: vs), a.
    split; [exact Hscan |]. split; [exact Hval |]. split; [exact Hpos |].
    split; [exact Ha |]. split; [| intros _; exact Hmax].
    intro E. rewrite E in Hval. inversion Hval.
Qed.

(** ** Substrings *)

Lemma startswith_iff : forall p s, startswith p s = true <-> exists post, s = p ++ post.
Proof.
  induction p as [| a p IH]; intros s; simpl.
  - split; eauto.
  - destruct s as [| c s].
    + split; [discriminate | intros [post H]; discriminate].
    + rewrite andb_true_iff, Ascii.eqb_eq, IH. split.
      * intros [Ha [post Hs]]. exists post. congruence.
      * intros [post Hs]. inversion Hs; subst. eauto.
Qed.

(** Python's [k in s] is the substring relation. *)
Lemma contains_iff : forall k s, contains k s = true <-> substring k s.
Proof.
  intros k. induction s as [| c s IH]; simpl.
  - rewrite orb_false_r, startswith_iff. split.
    + intros [post H]. exists [], post. exact H.
    + intros (pre & post & H). destruct pre; [| discriminate]. eauto.
  - rewrite orb_true_iff, startswith_iff, IH. split.
    + intros [[post H] | (pre & post & H)].
      * exists [], post. exact H.
      * exists (c :: pre), post. simpl. congruence.
    + intros (pre & post & H). destruct pre as [| a pre].
      * left. eauto.
      * right. inversion H; subst. exists pre, post. reflexivity.
Qed.

Lemma lower_app : forall a b, lower (a ++ b) = lower a ++ lower b.
Proof. intros a b. apply map_app. Qed.

(** A lower-case key occurs in [lower s] exactly when it occurs in [s] in
    some mixture of cases. *)
Lemma substring_lower : forall k s, substring k (lower s) <-> substring_ci k s.
Proof.
  intros k s. split.
  - intros (pre & post & H). unfold lower in H.
    apply map_eq_app in H. destruct H as (pre' & t & Hs & Hpre & Ht).
    apply map_eq_app in Ht. destruct Ht as (m & post' & Ht & Hm & Hpost).
    exists pre', m, post'. subst. auto.
  - intros (pre & m & post & Hs & Hm).
    exists (lower pre), (lower post). subst. rewrite !lower_app. reflexivity.
Qed.

Lemma contains_lower_false : forall k s,
  contains k (lower s) = false <-> ~ substring_ci k s.
Proof.
  intros k s. rewrite <- substring_lower, <- contains_iff.
  destruct (contains k (lower s)); split; congruence.
Qed.

(** ** Words and the vendor *)

Lemma split_ws_aux_nil : forall s cur,
  split_ws_aux cur s = [] -> cur = [] /\ whitespace_only s.
Proof.
  induction s as [| c s IH]; intros cur H; simpl in H.
  - destruct cur; [split; [reflexivity | constructor] | discriminate].
  - destruct (isspace c) eqn:Hc.
    + destruct cur; [| discriminate].
      apply IH in H. destruct H as [_ H]. split; [reflexivity |].
      constructor; assumption.
    + apply IH in H. destruct H as [H _]. discriminate.
Qed.

Lemma split_ws_aux_head : forall s cur w tl,
  split_ws_aux cur s = w :: tl ->
  exists ws w2 rest,
    s = ws ++ w2 ++ rest /\ w = rev cur ++ w2 /\
    whitespace_only ws /\ Forall (fun c => isspace c = false) w2 /\
    (rest = [] \/ exists c rest', rest = c :: rest' /\ isspace c = true) /\
    (cur <> [] -> ws = []) /\ (cur = [] -> w2 <> []).
Proof.
  induction s as [| c s IH]; intros cur w tl H; simpl in H.
  - destruct cur as [| a cur]; [discriminate |].
    inversion H; subst. exists [], [], [].
    splits.
    + reflexivity.
    + simpl. rewrite app_nil_r. reflexivity.
    + constructor.
    + constructor.
    + left; reflexivity.
    + reflexivity.
    + intro; discriminate.
  - destruct (isspace c) eqn:Hc.
    + destruct cur as [| a cur].
      * apply IH in H.
        destruct H as (ws & w2 & rest & Hs & Hw & Hws & Hw2 & Hrest & _ & Hne).
        exists (c :: ws), w2, rest. subst s.
        splits; auto.
        -- constructor; assumption.
        -- intro Hn. congruence.
      * inversion H; subst. exists [], [], (c :: s).
        splits.
        -- reflexivity.
        -- simpl. rewrite app_nil_r. reflexivity.
        -- constructor.
        -- constructor.
        -- right. eauto.
        -- reflexivity.
        -- intro; discriminate.
    + apply IH in H.
      destruct H as (ws & w2 & rest & Hs & Hw & Hws & Hw2 & Hrest & Hcur & _).
      assert (ws = []) by (apply Hcur; discriminate). subst ws.
      exists [], (c :: w2), rest. subst s. simpl in *. rewrite <- app_assoc in Hw.
      splits.
      * reflexivity.
      * exact Hw.
      * constructor.
      * constructor; assumption.
      * exact Hrest.
      * reflexivity.
      * intros _; discriminate.
Qed.

Lemma split_ws_first_word : forall line w tl,
  split_ws line = w :: tl -> first_word line w.
Proof.
  intros line w tl H. unfold split_ws in H. apply split_ws_aux_head in H.
  destruct H as (ws & w2 & rest & Hs & Hw & Hws & Hw2 & Hrest & _ & Hne).
  simpl in Hw. subst w. exists ws, rest. repeat split; auto.
Qed.

Lemma split_ws_nonempty : forall c s, isspace c = false -> split_ws (c :: s) <> [].
Proof.
  intros c s Hc H. unfold split_ws in H. apply split_ws_aux_nil in H.
  destruct H as [_ H]. inversion H; subst. congruence.
Qed.

Lemma first_word_nonempty : forall line w, first_word line w -> w <> [].
Proof. intros line w (ws & rest & _ & _ & H & _). exact H. Qed.

Lemma Lang_opt : forall a b m, Lang (opt a) b m <-> m = [] \/ m = [a].
Proof.
  intros a b m. unfold opt. simpl. split.
  - intros (Hall & _ & Hhi).
    destruct m as [| x [| y m]]; simpl in Hhi; [auto | | lia].
    inversion Hall as [| ? ? Hx _]; subst. apply is_char_eq in Hx. subst. auto.
  - intros [H | H]; subst m; splits; simpl; auto.
    constructor; [apply is_char_eq; reflexivity | constructor].
Qed.

Lemma Lang_digits_head : forall lo hi b m,
  Lang (digits lo hi) b m -> 1 <= lo ->
  exists c m', m = c :: m' /\ isdigit c = true.
Proof.
  intros lo hi b m (Hall & Hlo & _) H1.
  destruct m as [| c m]; simpl in Hlo; [lia |].
  inversion Hall; subst. eauto.
Qed.

(** The skip pattern matches at the start of a line exactly when the line
    begins with a digit, or with a dollar sign and then a digit. *)
Lemma numeric_prefix_iff : forall line,
  numeric_prefix line <->
  exists c rest,
    (line = c :: rest \/ line = "$"%char :: c :: rest) /\ isdigit c = true.
Proof.
  intro line. unfold numeric_prefix, vendor_skip_re. split.
  - intros (m & rest & Hline & m0 & m1 & Hm & [_ Hm0] & [HA | HB]); subst m0;
      simpl in Hm; subst m.
    + destruct HA as (o & t & Hm1 & Ho & ds & t' & Ht & Hds & _).
      apply Lang_opt in Ho.
      apply Lang_digits_head in Hds; [| lia].
      destruct Hds as (c & ds' & Hds & Hc). subst.
      destruct Ho as [Ho | Ho]; subst o; simpl.
      * exists c, ((ds' ++ t') ++ rest). split; [left; reflexivity | exact Hc].
      * exists c, ((ds' ++ t') ++ rest). split; [right; reflexivity | exact Hc].
    + destruct HB as (ds & t & Hm1 & Hds & _).
      apply Lang_digits_head in Hds; [| lia].
      destruct Hds as (c & ds' & Hds & Hc). subst. simpl.
      exists c, ((ds' ++ t) ++ rest). split; [left; reflexivity | exact Hc].
  - intros (c & rest & [Hline | Hline] & Hc); subst line.
    + exists [c], rest. split; [reflexivity |].
      exists [], [c]. split; [reflexivity |]. split; [split; reflexivity |].
      left. exists [], [c]. split; [reflexivity |].
      split; [apply Lang_opt; auto |].
      exists [c], []. split; [reflexivity |].
      split; [splits; simpl; auto |].
      exists [], []. split; [reflexivity |].
      split; [apply Lang_opt; auto | splits; simpl; auto].
    + exists ["$"%char; c], rest. split; [reflexivity |].
      exists [], ["$"%char; c]. split; [reflexivity |]. split; [split; reflexivity |].
      left. exists ["$"%char], [c]. split; [reflexivity |].
      split; [apply Lang_opt; auto |].
      exists [c], []. split; [reflexivity |].
      split; [splits; simpl; auto |].
      exists [], []. split; [reflexivity |].
      split; [apply Lang_opt; auto | splits; simpl; auto].
Qed.

(** The test of the loop body decides [line_survives]. *)
Lemma line_survives_iff : forall line,
  line_survives line <->
  re_match vendor_skip_re line = None /\
  (3 <? length line)
    && negb (contains (str "receipt") (lower line))
    && negb (contains (str "tax") (lower line)) = true.
Proof.
  intro line. unfold line_survives, numeric_prefix.
  rewrite re_match_none_iff, !andb_true_iff, !negb_true_iff, Nat.ltb_lt,
    !contains_lower_false.
  split.
  - intros (H1 & H2 & H3 & H4). repeat split; auto.
    intros m rest Hs HL. apply H1. eauto.
  - intros (H1 & (H2 & H3) & H4). repeat split; auto.
    intros (m & rest & Hs & HL). eapply H1; eassumption.
Qed.

Lemma vendor_loop_cons : forall line0 rest v0,
  vendor_loop (line0 :: rest) v0 =
  match re_match vendor_skip_re (strip line0) with
  | Some _ => vendor_loop rest v0
  | None =>
      if (3 <? length (strip line0))
         && negb (contains (str "receipt") (lower (strip line0)))
         && negb (contains (str "tax") (lower (strip line0)))
      then match split_ws (strip line0) with
           | _ :: _ => py_index (split_ws (strip line0)) 0
           | [] => vendor_loop rest v0
           end
      else vendor_loop rest v0
  end.
Proof. reflexivity. Qed.

(** Lines 149-156: the loop stops at the first surviving line and takes its
    first word; without one it leaves [vendor] alone. *)
Lemma vendor_loop_spec : forall raw v0,
  (exists pre line post w,
      map strip raw = pre ++ line :: post /\
      Forall (fun l => ~ line_survives l) pre /\
      line_survives line /\ first_word line w /\
      vendor_loop raw v0 = Ok w)
  \/ (Forall (fun l => ~ line_survives l) (map strip raw) /\
      vendor_loop raw v0 = Ok v0).
Proof.
  induction raw as [| line0 raw IH]; intro v0.
  - right. simpl. split; [constructor | reflexivity].
  - assert (Hskip : ~ line_survives (strip line0) ->
                    vendor_loop (line0 :: raw) v0 = vendor_loop raw v0 ->
                    (exists pre line post w,
                        map strip (line0 :: raw) = pre ++ line :: post /\
                        Forall (fun l => ~ line_survives l) pre /\
                        line_survives line /\ first_word line w /\
                        vendor_loop (line0 :: raw) v0 = Ok w)
                    \/ (Forall (fun l => ~ line_survives l) (map strip (line0 :: raw)) /\
                        vendor_loop (line0 :: raw) v0 = Ok v0)).
    { intros Hns Heq. rewrite Heq.
      destruct (IH v0) as [(pre & line & post & w & Hs & Hpre & Hl & Hw & Hv) | [Hall Hv]].
      - left. exists (strip line0 :: pre), line, post, w. simpl. rewrite Hs.
        splits; auto.
      - right. simpl. split; [constructor; assumption | assumption]. }
    pose proof (line_survives_iff (strip line0)) as Hiff.
    pose proof (vendor_loop_cons line0 raw v0) as Heq.
    remember (strip line0) as line eqn:Hstrip.
    destruct (re_match vendor_skip_re line) as [m |] eqn:Hm.
    + apply Hskip; [| exact Heq].
      intro Hs. apply Hiff in Hs. destruct Hs as [Hs _]. discriminate.
    + destruct ((3 <? length line)
                && negb (contains (str "receipt") (lower line))
                && negb (contains (str "tax") (lower line))) eqn:Ht.
      * assert (Hsurv : line_survives line) by (apply Hiff; auto).
        destruct line as [| c s].
        { destruct Hsurv as (_ & Hlen & _). simpl in Hlen. lia. }
        symmetry in Hstrip.
        pose proof (strip_head _ _ _ Hstrip) as Hc.
        destruct (split_ws (c :: s)) as [| w tl] eqn:Hparts.
        { exfalso. eapply split_ws_nonempty; eassumption. }
        left. exists [], (c :: s), (map strip raw), w.
        splits.
        -- simpl. rewrite Hstrip. reflexivity.
        -- constructor.
        -- exact Hsurv.
        -- eapply split_ws_first_word; eassumption.
        -- rewrite Heq. reflexivity.
      * apply Hskip; [| exact Heq].
        intro Hs. apply Hiff in Hs. destruct Hs as [_ Hs]. congruence.
Qed.

(** ** Dates *)

Lemma code_digit_char : forall n, n < 10 -> code (digit_char n) = 48 + n.
Proof.
  intros n H. unfold code, digit_char. apply nat_ascii_embedding. lia.
Qed.

Lemma isdigit_digit_char : forall n, n < 10 -> isdigit (digit_char n) = true.
Proof.
  intros n H. unfold isdigit. rewrite code_digit_char by assumption. bool_arith.
Qed.

Lemma digit_val_digit_char : forall n, n < 10 -> digit_val (digit_char n) = n.
Proof.
  intros n H. unfold digit_val. rewrite code_digit_char by assumption. lia.
Qed.

Lemma div_100_10 : forall y, y / 100 / 10 = y / 1000.
Proof. intro y. rewrite Nat.Div0.div_div. reflexivity. Qed.

Lemma div_10_10 : forall y, y / 10 / 10 = y / 100.
Proof. intro y. rewrite Nat.Div0.div_div. reflexivity. Qed.

Lemma four_digits : forall y, y / 1000 <= 9 ->
  10 * (10 * (10 * (10 * 0 + y / 1000) + y / 100 mod 10) + y / 10 mod 10) + y mod 10 = y.
Proof.
  intros y H.
  pose proof (Nat.div_mod_eq y 10). pose proof (Nat.div_mod_eq (y / 10) 10).
  pose proof (Nat.div_mod_eq (y / 100) 10).
  rewrite div_100_10, div_10_10 in *. lia.
Qed.

Lemma two_digits : forall m, 10 * (10 * 0 + m / 10) + m mod 10 = m.
Proof. intro m. pose proof (Nat.div_mod_eq m 10). lia. Qed.

Lemma mod_10_lt : forall n, n mod 10 < 10.
Proof. intro n. apply Nat.mod_upper_bound. discriminate. Qed.

Lemma div_10_lt : forall n, n <= 31 -> n / 10 < 10.
Proof. intros n H. pose proof (Nat.div_mod_eq n 10). lia. Qed.

Lemma days_in_month_le : forall y m, days_in_month y m <= 31.
Proof.
  intros y m. unfold days_in_month.
  do 13 (destruct m as [| m]; [try lia; destruct (is_leap y); lia |]). lia.
Qed.

(** A year of four digits or more is printed by [%Y] digit for digit. *)
Lemma year_digits_four : forall y, 1 <= y / 1000 -> year_digits y = pad4 y.
Proof.
  intros y H. pose proof (Nat.div_mod_eq y 1000) as E.
  unfold year_digits.
  destruct (Nat.ltb_spec y 10); [lia |].
  destruct (Nat.ltb_spec y 100); [lia |].
  destruct (Nat.ltb_spec y 1000); [lia | reflexivity].
Qed.

Lemma strftime_ymd_chars : forall d, 1 <= year d / 1000 ->
  strftime_ymd d =
  [ digit_char (year d / 1000); digit_char (year d / 100 mod 10);
    digit_char (year d / 10 mod 10); digit_char (year d mod 10); "-"%char;
    digit_char (month d / 10); digit_char (month d mod 10); "-"%char;
    digit_char (day d / 10); digit_char (day d mod 10) ].
Proof.
  intros d H. unfold strftime_ymd. rewrite (year_digits_four (year d) H).
  reflexivity.
Qed.

Lemma is_iso_date_chars : forall y1 y2 y3 y4 m1 m2 d1 d2,
  is_iso_date [y1; y2; y3; y4; "-"%char; m1; m2; "-"%char; d1; d2] =
  forallb isdigit [y1; y2; y3; y4; m1; m2; d1; d2] &&
  valid_ymd (10 * (10 * (10 * (10 * 0 + digit_val y1) + digit_val y2) + digit_val y3)
             + digit_val y4)
            (10 * (10 * 0 + digit_val m1) + digit_val m2)
            (10 * (10 * 0 + digit_val d1) + digit_val d2).
Proof.
  intros. unfold is_iso_date, is_char. rewrite Ascii.eqb_refl, !andb_true_r.
  reflexivity.
Qed.

(** Formatting a calendar date with [%Y-%m-%d] gives an ISO date string. *)
Lemma strftime_ymd_iso : forall d, valid_date d = true -> is_iso_date (strftime_ymd d) = true.
Proof.
  intros [y m d] H. unfold valid_date in H. simpl year in H. simpl month in H.
  simpl day in H.
  assert (Hb : 1 <= y / 1000 /\ y / 1000 <= 9 /\ 1 <= m /\ m <= 12 /\
               1 <= d /\ d <= days_in_month y m).
  { unfold valid_ymd in H. revert H. generalize (days_in_month y m). intros n H.
    bool_arith. }
  destruct Hb as (Hy1 & Hy2 & Hm1 & Hm2 & Hd1 & Hd2).
  pose proof (days_in_month_le y m) as Hd3.
  rewrite strftime_ymd_chars by exact Hy1. rewrite is_iso_date_chars.
  cbn [year month day forallb].
  rewrite !isdigit_digit_char, !digit_val_digit_char;
    try apply mod_10_lt; try (apply div_10_lt; lia); try lia.
  rewrite four_digits, !two_digits by assumption.
  exact H.
Qed.

(** Every match of a pattern that begins with a mandatory repetition of a
    class begins with a character of that class. *)
Lemma Lang_cat_rep_head : forall c lo hi r b m,
  Lang (Cat (Rep c lo hi) r) b m -> 1 <= lo ->
  exists a m', m = a :: m' /\ c a = true.
Proof.
  intros c lo hi r b m (m1 & m2 & Hm & (Hall & Hlo & _) & _) H1.
  destruct m1 as [| a m1]; simpl in Hlo; [lia |].
  inversion Hall; subst. simpl. eauto.
Qed.

Lemma searched_pattern_head : forall p, In p searched_patterns ->
  forall b m, Lang p b m -> exists a m', m = a :: m' /\ isspace a = false.
Proof.
  intros p Hp b m HL.
  assert (H : exists a m', m = a :: m' /\ (isdigit a = true \/ isalpha_ascii a = true)).
  { simpl in Hp.
    destruct Hp as [Hp | [Hp | [Hp | [Hp | [Hp | []]]]]]; subst p;
      apply Lang_cat_rep_head in HL; try lia;
      destruct HL as (a & m' & Hm & Ha); eauto. }
  destruct H as (a & m' & Hm & [Ha | Ha]); exists a, m'; split; auto.
  - apply isdigit_not_space; assumption.
  - apply isalpha_not_space; assumption.
Qed.

Lemma searched_pattern_nonempty : forall p, In p searched_patterns ->
  forall b m, Lang p b m -> m <> [].
Proof.
  intros p Hp b m HL. destruct (searched_pattern_head p Hp b m HL) as (a & m' & Hm & _).
  congruence.
Qed.

(** Lines 134-138: the first pattern, in list order, that occurs in the text
    decides, and its leftmost occurrence is taken. *)
Lemma date_loop_some : forall ps text m,
  date_loop ps text = Some m ->
  exists i p pre,
    nth_error ps i = Some p /\ occurs p text pre m /\
    (forall pre' m', occurs p text pre' m' -> length pre <= length pre') /\
    (forall j q, j < i -> nth_error ps j = Some q -> ~ matches_anywhere q text).
Proof.
  induction ps as [| p ps IH]; intros text m H; simpl in H.
  - discriminate.
  - destruct (re_search p text) as [m0 |] eqn:Hs.
    + inversion H; subst m0. apply re_search_some in Hs.
      destruct Hs as (pre & Hocc & Hleft).
      exists 0, p, pre. splits; auto. intros j q Hj. lia.
    + apply IH in H. destruct H as (i & q & pre & Hn & Hocc & Hleft & Hprev).
      exists (S i), q, pre. splits; auto.
      intros j q' Hj Hq'. destruct j as [| j].
      * simpl in Hq'. inversion Hq'; subst q'. apply re_search_none. assumption.
      * simpl in Hq'. eapply Hprev; [| eassumption]. lia.
Qed.

Lemma date_loop_none : forall ps text,
  date_loop ps text = None ->
  forall p, In p ps -> ~ matches_anywhere p text.
Proof.
  induction ps as [| p ps IH]; intros text H q Hq; simpl in *.
  - contradiction.
  - destruct (re_search p text) as [m0 |] eqn:Hs; [discriminate |].
    destruct Hq as [Hq | Hq].
    + subst q. apply re_search_none. assumption.
    + apply IH; assumption.
Qed.

Lemma date_loop_truthy : forall text m,
  date_loop date_patterns text = Some m -> truthy (Some m) = true.
Proof.
  intros text m H. apply date_loop_some in H.
  destruct H as (i & p & pre & Hn & (post & _ & HL) & _).
  apply nth_error_In in Hn.
  assert (Hne : m <> []).
  { eapply searched_pattern_nonempty; [right; exact Hn | exact HL]. }
  destruct m; [congruence | reflexivity].
Qed.

(** Lines 140-145: the parsed date when the candidate parses, the date of
    the clock otherwise. *)
Lemma extract_date_cases : forall now pd text,
  (date_loop date_patterns text = None /\
   extract_date now pd text = Ok (strftime_ymd (dt_date now)))
  \/ (exists m,
        date_loop date_patterns text = Some m /\
        ((exists d, pd m = Ok (Timestamp d) /\
                    extract_date now pd text = Ok (strftime_ymd d))
         \/ ((pd m = Ok NaT \/ exists e, pd m = Raise e) /\
             extract_date now pd text = Ok (strftime_ymd (dt_date now))))).
Proof.
  intros now pd text. unfold extract_date.
  destruct (date_loop date_patterns text) as [m |] eqn:Hd.
  - right. exists m. split; [reflexivity |].
    rewrite (date_loop_truthy text m Hd).
    destruct (pd m) as [[d |] | e] eqn:Hp; simpl.
    + left. exists d. auto.
    + right. auto.
    + right. split; [right; exists e; reflexivity | reflexivity].
  - left. auto.
Qed.

Lemma extract_date_iso : forall now pd text,
  valid_date (dt_date now) = true ->
  (forall s d, pd s = Ok (Timestamp d) -> valid_date d = true) ->
  exists s, extract_date now pd text = Ok s /\ is_iso_date s = true.
Proof.
  intros now pd text Hnow Hpd.
  destruct (extract_date_cases now pd text)
    as [[_ H] | (m & _ & [(d & Hd & H) | [_ H]])].
  - exists (strftime_ymd (dt_date now)). split; [exact H |].
    apply strftime_ymd_iso; assumption.
  - exists (strftime_ymd d). split; [exact H |].
    apply strftime_ymd_iso. eapply Hpd; eassumption.
  - exists (strftime_ymd (dt_date now)). split; [exact H |].
    apply strftime_ymd_iso; assumption.
Qed.

(** ** Blank text *)

Lemma whitespace_only_app : forall a b,
  whitespace_only (a ++ b) <-> whitespace_only a /\ whitespace_only b.
Proof. intros a b. unfold whitespace_only. apply Forall_app. Qed.

Lemma whitespace_no_match : forall p, In p searched_patterns ->
  forall text, whitespace_only text -> ~ matches_anywhere p text.
Proof.
  intros p Hp text Hws (pre & m & post & Hs & HL).
  destruct (searched_pattern_head p Hp _ _ HL) as (a & m' & Hm & Ha).
  subst text m. apply whitespace_only_app in Hws. destruct Hws as [_ Hws].
  apply whitespace_only_app in Hws. destruct Hws as [Hws _].
  inversion Hws; subst. congruence.
Qed.

Lemma replace_comma_whitespace : forall text,
  whitespace_only text -> replace_char "," "." text = text.
Proof.
  induction text as [| c text IH]; intro H; simpl.
  - reflexivity.
  - inversion H as [| ? ? Hc Ht]; subst.
    fold (replace_char "," "." text). rewrite IH by assumption.
    destruct (Ascii.eqb c ",") eqn:E; [| reflexivity].
    apply Ascii.eqb_eq in E. subst c. discriminate.
Qed.

Lemma extract_total_amount_blank : forall text,
  whitespace_only text -> extract_total_amount text = Ok 0%Q.
Proof.
  intros text Hws.
  destruct (extract_total_amount_spec text)
    as (ms & vs & a & Hscan & _ & _ & Ha & Hnil & _).
  rewrite Ha. f_equal. apply Hnil.
  rewrite replace_comma_whitespace in Hscan by assumption.
  eapply leftmost_matches_none; [exact Hscan |].
  intros pre m post Hs Hm.
  apply (whitespace_no_match amount_re (or_introl eq_refl) text Hws).
  exists pre, m, post. split; [exact Hs |].
  apply amount_shaped_Lang. exact Hm.
Qed.

Lemma date_loop_blank : forall text,
  whitespace_only text -> date_loop date_patterns text = None.
Proof.
  intros text Hws.
  destruct (date_loop date_patterns text) as [m |] eqn:Hd; [| reflexivity].
  exfalso. apply date_loop_some in Hd.
  destruct Hd as (i & p & pre & Hn & Hocc & _).
  apply nth_error_In in Hn.
  apply (whitespace_no_match p (or_intror Hn) text Hws).
  exists pre, m. exact Hocc.
Qed.

Lemma extract_vendor_blank : forall text,
  whitespace_only text -> extract_vendor text = Ok (str "Unknown").
Proof.
  intros text Hws. unfold extract_vendor.
  rewrite strip_whitespace_only by assumption. reflexivity.
Qed.

(** ** Categories *)

Lemma any_keyword_hit : forall keywords text,
  any (fun keyword => contains keyword text) keywords = true <->
  keyword_hit keywords text.
Proof.
  intros keywords text. unfold any, keyword_hit. rewrite existsb_exists.
  split; intros (k & Hin & Hk); exists k; split; auto; apply contains_iff; assumption.
Qed.

Lemma categorize_loop_first : forall pre c kws post text,
  Forall (no_hit text) pre ->
  keyword_hit kws text ->
  categorize_loop (pre ++ (c, kws) :: post) text = c.
Proof.
  induction pre as [| [c0 kws0] pre IH]; intros c kws post text Hpre Hhit; simpl.
  - apply any_keyword_hit in Hhit. rewrite Hhit. reflexivity.
  - inversion Hpre as [| ? ? H0 Hpre']; subst. unfold no_hit in H0. simpl in H0.
    destruct (any (fun keyword => contains keyword text) kws0) eqn:E.
    + exfalso. apply H0. apply any_keyword_hit. exact E.
    + apply IH; assumption.
Qed.

Lemma categorize_loop_none : forall items text,
  Forall (no_hit text) items ->
  categorize_loop items text = str "other".
Proof.
  induction items as [| [c0 kws0] items IH]; intros text H; simpl.
  - reflexivity.
  - inversion H as [| ? ? H0 H']; subst. unfold no_hit in H0. simpl in H0.
    destruct (any (fun keyword => contains keyword text) kws0) eqn:E.
    + exfalso. apply H0. apply any_keyword_hit. exact E.
    + apply IH; assumption.
Qed.

(** Either some category is the first one hit, or none is. *)
Lemma categorize_loop_cases : forall items text,
  (exists pre c kws post,
      items = pre ++ (c, kws) :: post /\
      Forall (no_hit text) pre /\
      keyword_hit kws text)
  \/ Forall (no_hit text) items.
Proof.
  induction items as [| [c0 kws0] items IH]; intro text.
  - right. constructor.
  - destruct (any (fun keyword => contains keyword text) kws0) eqn:E.
    + left. exists [], c0, kws0, items. splits; auto.
      apply any_keyword_hit. exact E.
    + assert (H0 : ~ keyword_hit kws0 text).
      { intro H. apply any_keyword_hit in H. congruence. }
      destruct (IH text) as [(pre & c & kws & post & Hs & Hpre & Hhit) | Hall].
      * left. exists ((c0, kws0) :: pre), c, kws, post. subst items.
        splits; auto.
      * right. constructor; assumption.
Qed.

Lemma lower_char_lowercase : forall c,
  97 <= code c <= 122 -> lower_char c = c.
Proof.
  intros c H. unfold lower_char.
  replace (((65 <=? code c) && (code c <=? 90))
           || ((192 <=? code c) && (code c <=? 222) && negb (code c =? 215)))
    with false; [reflexivity |].
  symmetry. bool_arith.
Qed.

(** A key that [lower] leaves alone survives lower-casing of the text. *)
Lemma substring_lower_fixed : forall k s,
  lower k = k -> substring k s -> substring k (lower s).
Proof.
  intros k s Hk (pre & post & Hs). subst s.
  exists (lower pre), (lower post). rewrite !lower_app, Hk. reflexivity.
Qed.

(** ** The record as a whole *)

Lemma parse_expense_data_fields : forall now pd text a d v,
  extract_total_amount text = Ok a ->
  extract_date now pd text = Ok d ->
  extract_vendor text = Ok v ->
  parse_expense_data now pd text =
  Ok {| amount := a; date := d; vendor := v;
        description := firstn 200 (strip text) |}.
Proof.
  intros now pd text a d v Ha Hd Hv. unfold parse_expense_data.
  rewrite Ha, Hd, Hv. reflexivity.
Qed.

Lemma extract_total_amount_nonneg : forall text,
  exists a, extract_total_amount text = Ok a /\ (0 <= a)%Q.
Proof.
  intro text.
  destruct (extract_total_amount_spec text)
    as (ms & vs & a & _ & Hval & Hpos & Ha & Hnil & Hmax).
  exists a. split; [exact Ha |].
  destruct ms as [| m ms].
  - rewrite Hnil by reflexivity. apply Qle_refl.
  - destruct Hmax as [Hin _]; [discriminate |].
    rewrite Forall_forall in Hpos. apply Hpos. exact Hin.
Qed.

Lemma extract_vendor_cases : forall text,
  (exists pre line post w,
      map strip (split_on "010" (strip text)) = pre ++ line :: post /\
      Forall (fun l => ~ line_survives l) pre /\
      line_survives line /\ first_word line w /\
      extract_vendor text = Ok w)
  \/ (Forall (fun l => ~ line_survives l) (map strip (split_on "010" (strip text))) /\
      extract_vendor text = Ok (str "Unknown")).
Proof.
  intro text. unfold extract_vendor. apply vendor_loop_spec.
Qed.

Lemma extract_vendor_nonempty : forall text,
  exists v, extract_vendor text = Ok v /\ v <> [].
Proof.
  intro text.
  destruct (extract_vendor_cases text)
    as [(pre & line & post & w & _ & _ & _ & Hw & Hv) | [_ Hv]].
  - exists w. split; [exact Hv |]. eapply first_word_nonempty; eassumption.
  - exists (str "Unknown"). split; [exact Hv | discriminate].
Qed.

Lemma extract_date_ok : forall now pd text, exists d, extract_date now pd text = Ok d.
Proof.
  intros now pd text.
  destruct (extract_date_cases now pd text)
    as [[_ H] | (m & _ & [(d & _ & H) | [_ H]])]; eauto.
Qed.

Lemma Forall2_In_left : forall (A B : Type) (R : A -> B -> Prop) l1 l2 a,
  Forall2 R l1 l2 -> In a l1 -> exists b, In b l2 /\ R a b.
Proof.
  intros A B R l1 l2 a H. induction H as [| x y l1 l2 Hxy H IH]; intro Hin.
  - contradiction.
  - destruct Hin as [Hin | Hin].
    + subst x. exists y. split; [left; reflexivity | exact Hxy].
    + destruct (IH Hin) as (b & Hb & Hr). exists b. split; [right |]; assumption.
Qed.

Lemma Forall2_In_right : forall (A B : Type) (R : A -> B -> Prop) l1 l2 b,
  Forall2 R l1 l2 -> In b l2 -> exists a, In a l1 /\ R a b.
Proof.
  intros A B R l1 l2 b H. induction H as [| x y l1 l2 Hxy H IH]; intro Hin.
  - contradiction.
  - destruct Hin as [Hin | Hin].
    + subst y. exists x. split; [left; reflexivity | exact Hxy].
    + destruct (IH Hin) as (a & Ha & Hr). exists a. split; [right |]; assumption.
Qed.

(** When the token [45.00] is among the matches and no value exceeds 45.00,
    the maximum is 45.00. *)
Lemma max_is_45 : forall ms vs a,
  Forall2 amount_value ms vs -> is_max_of a vs ->
  In (str "45.00") ms -> Forall (fun v => (v <= 45.00)%Q) vs ->
  a = 45.00%Q.
Proof.
  intros ms vs a Hval [Hin Hmax] H45 Hle.
  destruct (Forall2_In_left _ _ _ _ _ _ Hval H45) as (v45 & Hv45 & Hav).
  assert (E45 : v45 = 45.00%Q).
  { eapply amount_value_functional; [exact Hav |].
    exists (str "45"), "0"%char, "0"%char. split; reflexivity. }
  subst v45.
  destruct (Forall2_In_right _ _ _ _ _ _ Hval Hin) as (m & _ & ip & d1 & d2 & _ & Ha).
  rewrite Forall_forall in Hmax, Hle.
  pose proof (Hmax _ Hv45) as H1. pose proof (Hle _ Hin) as H2.
  subst a. unfold Qle in H1, H2. cbn [Qnum Qden] in H1, H2.
  f_equal. lia.
Qed.





(** ** The claims *)

(** A year below 1000 is printed with fewer than four digits, and the
    formatted date is then no [YYYY-MM-DD] string. *)
Lemma strftime_ymd_early : forall d,
  year d < 1000 -> is_iso_date (strftime_ymd d) = false.
Proof.
  intros [y m n] H. cbn [year] in H.
  unfold strftime_ymd, year_digits, pad2. cbn [year month day].
  destruct (Nat.ltb_spec y 10); [reflexivity |].
  destruct (Nat.ltb_spec y 100); [reflexivity |].
  destruct (Nat.ltb_spec y 1000); [reflexivity | lia].
Qed.

(** The text [0999-12-31] has the shape of the first date pattern; when the
    date parser reads it as the year 999, the record carries [999-12-31]. *)
Lemma parse_early_year : forall now pd,
  pd (str "0999-12-31") = Ok (Timestamp (mkdate 999 12 31)) ->
  exists r,
    parse_expense_data now pd (str "0999-12-31") = Ok r /\
    date r = str "999-12-31" /\ is_iso_date (date r) = false.
Proof.
  intros now pd Hpd.
  destruct (extract_total_amount_nonneg (str "0999-12-31")) as (a & Ha & _).
  destruct (extract_vendor_nonempty (str "0999-12-31")) as (v & Hv & _).
  assert (Ht : date_loop date_patterns (str "0999-12-31") = Some (str "0999-12-31"))
    by (vm_compute; reflexivity).
  eexists. split.
  - apply parse_expense_data_fields; [exact Ha | | exact Hv].
    unfold extract_date. rewrite Ht.
    replace (truthy (Some (str "0999-12-31"))) with true by reflexivity.
    cbv beta iota zeta. rewrite Hpd. reflexivity.
  - split; reflexivity.
Qed.

(** C1. For every text [parse_expense_data] returns a record and raises
    nothing: the amount is not negative, the vendor is not empty and the
    description is the stripped text cut at 200 characters. The date is a
    valid [YYYY-MM-DD] string whenever the clock and the date parser give
    calendar dates with four-digit years, but not for every text: the first
    date pattern takes any four digits for a year, and on the text
    [0999-12-31], which the date parser reads as 31 December 999, the date
    of the record is [999-12-31], a year of three digits. *)
Theorem record_date_not_always_iso : forall now pd,
  (forall text, exists r,
      parse_expense_data now pd text = Ok r /\
      (0 <= amount r)%Q /\ vendor r <> [] /\
      description r = firstn 200 (strip text) /\
      (valid_date (dt_date now) = true ->
       (forall s d, pd s = Ok (Timestamp d) -> valid_date d = true) ->
       is_iso_date (date r) = true)) /\
  (pd (str "0999-12-31") = Ok (Timestamp (mkdate 999 12 31)) ->
   exists r,
     parse_expense_data now pd (str "0999-12-31") = Ok r /\
     date r = str "999-12-31" /\ is_iso_date (date r) = false).
Proof.
  intros now pd. split.
  - intro text.
    destruct (extract_total_amount_nonneg text) as (a & Ha & Ha0).
    destruct (extract_date_ok now pd text) as (d & Hd).
    destruct (extract_vendor_nonempty text) as (v & Hv & Hne).
    eexists. split; [apply parse_expense_data_fields; eassumption |].
    cbn [amount vendor description date]. splits; auto.
    intros Hnow Hpd.
    destruct (extract_date_iso now pd text Hnow Hpd) as (d' & Hd' & Hiso).
    rewrite Hd in Hd'. inversion Hd'; subst d'. exact Hiso.
  - apply parse_early_year.
Qed.

Lemma record_date_not_always_iso_witness :
  sample_pd_early (str "0999-12-31") = Ok (Timestamp (mkdate 999 12 31)) /\
  exists r,
    parse_expense_data sample_now sample_pd_early (str "0999-12-31") = Ok r /\
    date r = str "999-12-31" /\ is_iso_date (date r) = false.
Proof.
  split; [reflexivity |].
  exact (proj2 (record_date_not_always_iso sample_now sample_pd_early) eq_refl).
Defined.

(** C2. With every comma of the text replaced by a dot, the amount of the
    record is the maximum of the values of the leftmost non-overlapping
    tokens made of one or more digits, a decimal point and exactly two
    digits (the text determines these tokens and their values), and it is
    0.0 when there is no such token. When 12.50, 45.00 and 3.20 are among
    the tokens and no token is worth more than 45.00 the amount is 45.00,
    as on the text [12.50 45.00 3.20] and on a receipt that prints 12,50,
    3,20 and 45,00. *)
Theorem amount_is_maximum : forall now pd text,
  (exists r ms vs,
      parse_expense_data now pd text = Ok r /\
      leftmost_matches amount_shaped (replace_char "," "." text) ms /\
      Forall2 amount_value ms vs /\
      (forall ms' vs',
          leftmost_matches amount_shaped (replace_char "," "." text) ms' ->
          Forall2 amount_value ms' vs' -> ms' = ms /\ vs' = vs) /\
      ((ms = [] /\ amount r = 0%Q) \/ (ms <> [] /\ is_max_of (amount r) vs)) /\
      (In (str "12.50") ms -> In (str "45.00") ms -> In (str "3.20") ms ->
       Forall (fun v => (v <= 45.00)%Q) vs -> amount r = 45.00%Q))
  /\ (exists r,
         parse_expense_data now pd (str "12.50 45.00 3.20") = Ok r /\
         amount r = 45.00%Q)
  /\ (exists r,
         parse_expense_data now pd
           (str "Subtotal 12,50" ++ newline ++ str "Tax 3,20" ++ newline
              ++ str "TOTAL 45,00") = Ok r /\
         amount r = 45.00%Q).
Proof.
  intros now pd text. split; [| split].
  - destruct (extract_total_amount_spec text)
      as (ms & vs & a & Hscan & Hval & _ & Ha & Hnil & Hmax).
    destruct (extract_date_ok now pd text) as (d & Hd).
    destruct (extract_vendor_nonempty text) as (v & Hv & _).
    eexists. exists ms, vs.
    split; [| split; [exact Hscan | split; [exact Hval | split]]].
    + apply parse_expense_data_fields; eassumption.
    + intros ms' vs' Hscan' Hval'.
      assert (E : ms' = ms) by (eapply leftmost_amounts_unique; eassumption).
      subst ms'. split; [reflexivity |].
      eapply amount_values_functional; eassumption.
    + split.
      * simpl. destruct ms as [| m ms].
        -- left. split; [reflexivity | apply Hnil; reflexivity].
        -- right. split; [discriminate | apply Hmax; discriminate].
      * intros _ H45 _ Hle. simpl.
        apply max_is_45 with (ms := ms) (vs := vs); try assumption.
        apply Hmax. intro E. rewrite E in H45. contradiction.
  - destruct (extract_date_ok now pd (str "12.50 45.00 3.20")) as (d & Hd).
    eexists. split.
    + apply parse_expense_data_fields; [vm_compute; reflexivity | exact Hd |
                                        vm_compute; reflexivity].
    + reflexivity.
  - match goal with
    | |- exists r, parse_expense_data _ _ ?t = _ /\ _ =>
        destruct (extract_date_ok now pd t) as (d & Hd)
    end.
    eexists. split.
    + apply parse_expense_data_fields; [vm_compute; reflexivity | exact Hd |
                                        vm_compute; reflexivity].
    + reflexivity.
Qed.



(** C4. The lines are the pieces of the stripped text between newlines, each
    stripped. The vendor is the first whitespace-delimited word of the first
    line that does not start with an amount-like or date-like token (a
    digit, or a dollar sign and a digit), has more than 3 characters and
    contains neither "receipt" nor "tax" in any mixture of cases; it is
    "Unknown" when no line survives. On the lines [$12.50], [RECEIPT],
    [Joe's Diner], [Tax: 1.00] the vendor is [Joe's]. *)
Theorem vendor_is_first_word_of_first_surviving_line : forall now pd text,
  (exists r,
      parse_expense_data now pd text = Ok r /\
      ((exists pre line post,
           map strip (split_on "010" (strip text)) = pre ++ line :: post /\
           Forall (fun l => ~ line_survives l) pre /\
           line_survives line /\ first_word line (vendor r))
       \/ (Forall (fun l => ~ line_survives l)
             (map strip (split_on "010" (strip text))) /\
           vendor r = str "Unknown")))
  /\ (forall line,
         numeric_prefix line <->
         exists c rest,
           (line = c :: rest \/ line = "$"%char :: c :: rest) /\ isdigit c = true)
  /\ (exists r,
         parse_expense_data now pd sample_receipt = Ok r /\
         vendor r = str "Joe's").
Proof.
  intros now pd text. split; [| split; [exact numeric_prefix_iff |]].
  - destruct (extract_total_amount_nonneg text) as (a & Ha & _).
    destruct (extract_date_ok now pd text) as (d & Hd).
    destruct (extract_vendor_cases text)
      as [(pre & line & post & w & Hs & Hpre & Hl & Hw & Hv) | [Hall Hv]].
    + eexists. split; [apply parse_expense_data_fields; eassumption |].
      left. exists pre, line, post. simpl. auto.
    + eexists. split; [apply parse_expense_data_fields; eassumption |].
      right. simpl. auto.
  - destruct (extract_date_ok now pd sample_receipt) as (d & Hd).
    eexists. split.
    + apply parse_expense_data_fields; [vm_compute; reflexivity | exact Hd |
                                        vm_compute; reflexivity].
    + reflexivity.
Qed.

(** C5. [categorize_expense] lower-cases vendor, a space and description and
    returns the first category, in the order food, transportation, shopping,
    utilities, entertainment, healthcare, other, one of whose keywords is a
    substring of that text, and "other" when no keyword of any category is;
    when "pizza" occurs in that text the label is "food" whatever else
    occurs in it, "uber" included. *)
Theorem categorize_first_hit : forall vendor0 description0,
  map fst EXPENSE_CATEGORIES =
    map str ["food"; "transportation"; "shopping"; "utilities"; "entertainment";
             "healthcare"; "other"]%string /\
  (let text := lower (vendor0 ++ str " " ++ description0) in
   (exists pre category keywords post,
       EXPENSE_CATEGORIES = pre ++ (category, keywords) :: post /\
       Forall (no_hit text) pre /\ keyword_hit keywords text /\
       categorize_expense vendor0 description0 = category)
   \/ (Forall (no_hit text) EXPENSE_CATEGORIES /\
       categorize_expense vendor0 description0 = str "other")) /\
  (substring (str "pizza") (lower (vendor0 ++ str " " ++ description0)) ->
   categorize_expense vendor0 description0 = str "food") /\
  (forall a b, categorize_expense (a ++ str "pizza" ++ b) description0 = str "food") /\
  (forall a b, categorize_expense vendor0 (a ++ str "pizza" ++ b) = str "food") /\
  categorize_expense (str "Uber") (str "ride to the Pizza place") = str "food".
Proof.
  intros vendor0 description0.
  assert (Hlow : forall t, substring (str "pizza") t ->
                           categorize_loop EXPENSE_CATEGORIES t = str "food").
  { intros t Ht.
    apply (categorize_loop_first [] (str "food")).
    - constructor.
    - exists (str "pizza"). split; [simpl; auto | exact Ht]. }
  assert (Hpizza : forall t, substring (str "pizza") t ->
                             categorize_loop EXPENSE_CATEGORIES (lower t) = str "food").
  { intros t Ht. apply Hlow.
    apply substring_lower_fixed; [reflexivity | exact Ht]. }
  split; [reflexivity |]. split; [| split; [| split; [| split]]].
  - cbv zeta. unfold categorize_expense.
    destruct (categorize_loop_cases EXPENSE_CATEGORIES
                (lower (vendor0 ++ str " " ++ description0)))
      as [(pre & c & kws & post & Hs & Hpre & Hhit) | Hall].
    + left. exists pre, c, kws, post. splits; auto.
      rewrite Hs. apply categorize_loop_first; assumption.
    + right. split; [exact Hall |]. apply categorize_loop_none. exact Hall.
  - intro H. unfold categorize_expense. apply Hlow. exact H.
  - intros a b. unfold categorize_expense. apply Hpizza.
    exists a, (b ++ str " " ++ description0). rewrite <- !app_assoc. reflexivity.
  - intros a b. unfold categorize_expense. apply Hpizza.
    exists (vendor0 ++ str " " ++ a), b. rewrite <- !app_assoc. reflexivity.
  - vm_compute. reflexivity.
Qed.

(** C6. Nothing is raised to the caller, and the date of the record is one
    of two formatted dates. When none of the four date patterns occurs in
    the text it is the date of the clock. Otherwise the candidate is the
    leftmost occurrence of the first pattern, in list order, that occurs;
    the date is the parsed date when the parser reads the candidate as a
    date, and the date of the clock when the parser gives [NaT] or raises.
    A formatted date is a valid [YYYY-MM-DD] string when the date has a
    four-digit year and is none when the year is below 1000, so the date of
    the record is not always valid: on the text [0999-12-31], which the
    parser reads as 31 December 999, it is [999-12-31]. *)
Theorem date_field_parsed_or_clock : forall now pd,
  (forall text, exists r,
      parse_expense_data now pd text = Ok r /\
      (((forall p, In p date_patterns -> ~ matches_anywhere p text) /\
        date r = strftime_ymd (dt_date now))
       \/ (exists m i p pre,
             date_loop date_patterns text = Some m /\
             nth_error date_patterns i = Some p /\ occurs p text pre m /\
             (forall pre' m', occurs p text pre' m' -> length pre <= length pre') /\
             (forall j q, j < i -> nth_error date_patterns j = Some q ->
                          ~ matches_anywhere q text) /\
             ((exists d, pd m = Ok (Timestamp d) /\ date r = strftime_ymd d)
              \/ ((pd m = Ok NaT \/ exists e, pd m = Raise e) /\
                  date r = strftime_ymd (dt_date now)))))) /\
  (forall d, valid_date d = true -> is_iso_date (strftime_ymd d) = true) /\
  (forall d, year d < 1000 -> is_iso_date (strftime_ymd d) = false) /\
  (pd (str "0999-12-31") = Ok (Timestamp (mkdate 999 12 31)) ->
   exists r,
     parse_expense_data now pd (str "0999-12-31") = Ok r /\
     date r = strftime_ymd (mkdate 999 12 31) /\
     date r = str "999-12-31" /\ is_iso_date (date r) = false).
Proof.
  intros now pd. split; [| split; [| split]].
  - intro text.
    destruct (extract_total_amount_nonneg text) as (a & Ha & _).
    destruct (extract_vendor_nonempty text) as (v & Hv & _).
    destruct (extract_date_ok now pd text) as (s & Hs).
    exists {| amount := a; date := s; vendor := v;
              description := firstn 200 (strip text) |}.
    split; [apply parse_expense_data_fields; assumption |].
    cbn [date].
    destruct (extract_date_cases now pd text) as [[Hn H] | (m & Hm & Hcase)].
    + rewrite Hs in H. inversion H; subst s.
      left. split; [| reflexivity]. apply date_loop_none. exact Hn.
    + right.
      destruct (date_loop_some _ _ _ Hm) as (i & p & pre & Hi & Hocc & Hleft & Hprev).
      exists m, i, p, pre.
      split; [exact Hm |]. split; [exact Hi |]. split; [exact Hocc |].
      split; [exact Hleft |]. split; [exact Hprev |].
      destruct Hcase as [(d & Hd & H) | [Hf H]];
        rewrite Hs in H; inversion H; subst s.
      * left. exists d. auto.
      * right. auto.
  - apply strftime_ymd_iso.
  - apply strftime_ymd_early.
  - intro Hpd. destruct (parse_early_year now pd Hpd) as (r & Hr & Hd & Hiso).
    exists r. split; [exact Hr |]. split; [rewrite Hd; reflexivity |].
    split; assumption.
Qed.

Lemma date_field_parsed_or_clock_witness :
  sample_pd_early (str "0999-12-31") = Ok (Timestamp (mkdate 999 12 31)) /\
  exists r,
    parse_expense_data sample_now sample_pd_early (str "0999-12-31") = Ok r /\
    date r = strftime_ymd (mkdate 999 12 31) /\
    date r = str "999-12-31" /\ is_iso_date (date r) = false.
Proof.
  split; [reflexivity |].
  exact (proj2 (proj2 (proj2 (date_field_parsed_or_clock sample_now sample_pd_early)))
           eq_refl).
Defined.

Lemma handle_raw_text_blank :
  forall now pd (service remote : Type) (get : result service)
         (append : service -> append_request -> remote -> result remote)
         raw_text filename button (st : app_state remote),
  whitespace_only raw_text ->
  handle_raw_text now pd get append raw_text filename button st =
  Ok (st_show (UiWarning (str "No text detected. Try a clearer image or PDF.")) st).
Proof.
  intros. unfold handle_raw_text.
  rewrite strip_whitespace_only by assumption. reflexivity.
Qed.

(** C7. When the OCR text is empty or whitespace-only the upload handler
    only shows the warning: the table of expenses and the remote sheet are
    left as they were, whatever the clock, the date parser, the spreadsheet
    service and the export button are, so nothing extracted or categorized
    reaches the store. *)
Theorem blank_text_creates_no_record :
  forall now pd (service remote : Type) (get : result service)
         (append : service -> append_request -> remote -> result remote)
         raw_text filename button (st : app_state remote),
  whitespace_only raw_text ->
  exists st',
    handle_raw_text now pd get append raw_text filename button st = Ok st' /\
    db st' = db st /\ sheet st' = sheet st /\
    ui st' = ui st ++ [UiWarning (str "No text detected. Try a clearer image or PDF.")].
Proof.
  intros now pd service remote get append raw_text filename button st Hws.
  eexists. split.
  - apply handle_raw_text_blank. exact Hws.
  - simpl. auto.
Qed.

Lemma blank_text_creates_no_record_witness :
  whitespace_only sample_blank /\
  exists st',
    handle_raw_text sample_now sample_pd (Ok tt) sample_append
      sample_blank (str "receipt.png") true sample_state = Ok st' /\
    db st' = db sample_state /\ sheet st' = sheet sample_state /\
    ui st' = ui sample_state
             ++ [UiWarning (str "No text detected. Try a clearer image or PDF.")].
Proof.
  assert (H : whitespace_only sample_blank) by (repeat constructor).
  split; [exact H |].
  exact (blank_text_creates_no_record sample_now sample_pd unit (list (list cell))
           (Ok tt) sample_append sample_blank (str "receipt.png") true
           sample_state H).
Defined.

Lemma export_try_cases :
  forall (service remote : Type) (get : result service)
         (append : service -> append_request -> remote -> result remote)
         expense_data spreadsheet_id (st : app_state remote),
  (exists sheet',
      export_succeeds get append expense_data spreadsheet_id (sheet st) sheet' /\
      export_try get append expense_data spreadsheet_id st =
      Ok (true, {| db := db st; ui := ui st; sheet := sheet' |}))
  \/ ((forall sheet',
          ~ export_succeeds get append expense_data spreadsheet_id (sheet st) sheet') /\
      exists e, export_try get append expense_data spreadsheet_id st = Raise e).
Proof.
  intros service remote get append expense_data spreadsheet_id st.
  unfold export_try.
  destruct get as [srv | e] eqn:Hg; cbn [bind].
  2:{ right. split; [| eauto].
      intros sheet' (srv & d & a & v & c & H & _). discriminate. }
  destruct (dict_get expense_data (str "date")) as [d | e] eqn:Hd; cbn [bind].
  2:{ right. split; [| eauto].
      intros sheet' (srv' & d & a & v & c & _ & H & _). congruence. }
  destruct (dict_get expense_data (str "amount")) as [a | e] eqn:Ha; cbn [bind].
  2:{ right. split; [| eauto].
      intros sheet' (srv' & d' & a & v & c & _ & _ & H & _). congruence. }
  destruct (dict_get expense_data (str "vendor")) as [v | e] eqn:Hv; cbn [bind].
  2:{ right. split; [| eauto].
      intros sheet' (srv' & d' & a' & v & c & _ & _ & _ & H & _). congruence. }
  destruct (dict_get expense_data (str "category")) as [c | e] eqn:Hc; cbn [bind].
  2:{ right. split; [| eauto].
      intros sheet' (srv' & d' & a' & v' & c & _ & _ & _ & _ & H & _). congruence. }
  match goal with
  | |- context [append srv ?rq (sheet st)] =>
      destruct (append srv rq (sheet st)) as [sheet' | e] eqn:Happ
  end; cbn [bind].
  - left. exists sheet'. split; [| reflexivity].
    exists srv, d, a, v, c. splits; auto.
  - right. split; [| eauto].
    intros sheet' (srv' & d' & a' & v' & c' & H1 & H2 & H3 & H4 & H5 & H6).
    inversion H1; subst srv'.
    rewrite Hd in H2; rewrite Ha in H3; rewrite Hv in H4; rewrite Hc in H5.
    inversion H2; inversion H3; inversion H4; inversion H5; subst.
    rewrite Happ in H6. discriminate.
Qed.

(** The other branch of the handler: text that is not blank does reach the
    store, as one new row built from the extracted record. *)
Lemma handle_raw_text_nonblank :
  forall now pd (service remote : Type) (get : result service)
         (append : service -> append_request -> remote -> result remote)
         raw_text filename button (st : app_state remote),
  ~ whitespace_only raw_text ->
  exists r st',
    parse_expense_data now pd raw_text = Ok r /\
    handle_raw_text now pd get append raw_text filename button st = Ok st' /\
    db st' = db st ++ [ {| row_date := date r;
                           row_amount := amount r;
                           row_vendor := vendor r;
                           row_category :=
                             categorize_expense (vendor r) (description r);
                           row_raw_text := raw_text;
                           row_filename := filename |} ].
Proof.
  intros now pd service remote get append raw_text filename button st Hnb.
  destruct (extract_total_amount_nonneg raw_text) as (a & Ha & _).
  destruct (extract_date_ok now pd raw_text) as (d & Hd).
  destruct (extract_vendor_nonempty raw_text) as (v & Hv & _).
  pose proof (parse_expense_data_fields now pd raw_text a d v Ha Hd Hv) as Hp.
  remember {| amount := a; date := d; vendor := v;
              description := firstn 200 (strip raw_text) |} as r eqn:Hr.
  exists r. unfold handle_raw_text.
  destruct (strip raw_text) as [| c s] eqn:Hs.
  { exfalso. apply Hnb. apply strip_nil_whitespace_only. exact Hs. }
  rewrite Hp. cbn [bind].
  destruct button.
  - match goal with
    | |- context [export_to_google_sheets get append ?dict ?id ?st3] =>
        destruct (export_try_cases service remote get append dict id st3)
          as [(sheet' & _ & Htry) | (_ & e & Htry)];
        unfold export_to_google_sheets; rewrite Htry
    end; cbn [try_except bind]; eexists; (split; [reflexivity |]);
      (split; [reflexivity |]); reflexivity.
  - eexists. split; [reflexivity |]. split; reflexivity.
Qed.

(** C9. [export_to_google_sheets] never raises. It returns [True] exactly
    when the service was obtained, the four keys were present and the
    request appending the one row [date, amount, vendor, category] to
    [Sheet1] went through; whenever one of these steps fails it returns
    [False], shows the error and leaves the sheet alone. The dict the
    caller passes yields the row of the record's date, amount and vendor
    and the category, in that order. *)
Theorem export_returns_bool :
  forall (service remote : Type) (get : result service)
         (append : service -> append_request -> remote -> result remote)
         expense_data spreadsheet_id (st : app_state remote) (e0 : expense) category,
  (exists b st',
      export_to_google_sheets get append expense_data spreadsheet_id st = Ok (b, st') /\
      db st' = db st /\
      ((b = true /\ ui st' = ui st /\
        export_succeeds get append expense_data spreadsheet_id (sheet st) (sheet st'))
       \/ (b = false /\ sheet st' = sheet st /\
           (forall sheet',
               ~ export_succeeds get append expense_data spreadsheet_id
                   (sheet st) sheet') /\
           exists e,
             ui st' = ui st ++ [UiErrorExn (str "Error exporting to Google Sheets: ") e])))
  /\ map (dict_get (dict_set (expense_dict e0) (str "category") (CStr category)))
         (map str ["date"; "amount"; "vendor"; "category"]%string)
     = [Ok (CStr (date e0)); Ok (CFloat (amount e0));
        Ok (CStr (vendor e0)); Ok (CStr category)].
Proof.
  intros service remote get append expense_data spreadsheet_id st e0 category.
  split; [| reflexivity].
  unfold export_to_google_sheets.
  destruct (export_try_cases service remote get append expense_data spreadsheet_id st)
    as [(sheet' & Hok & Htry) | (Hno & e & Htry)]; rewrite Htry; simpl.
  - exists true. eexists. split; [reflexivity |]. split; [reflexivity |].
    left. simpl. auto.
  - exists false. eexists. split; [reflexivity |]. split; [reflexivity |].
    right. simpl. splits; auto. exists e. reflexivity.
Qed.

(** C10. On the empty string and on every whitespace-only string
    [parse_expense_data] returns, without raising, the fully defaulted
    record: amount 0.0, vendor "Unknown", empty description, and the date of
    the clock formatted [YYYY-MM-DD]. *)
Theorem blank_text_defaults : forall now pd text,
  whitespace_only text ->
  parse_expense_data now pd text =
  Ok {| amount := 0%Q;
        date := strftime_ymd (dt_date now);
        vendor := str "Unknown";
        description := [] |}.
Proof.
  intros now pd text Hws.
  rewrite parse_expense_data_fields
    with (a := 0%Q) (d := strftime_ymd (dt_date now)) (v := str "Unknown").
  - rewrite strip_whitespace_only by assumption. reflexivity.
  - apply extract_total_amount_blank. exact Hws.
  - unfold extract_date. rewrite date_loop_blank by assumption. reflexivity.
  - apply extract_vendor_blank. exact Hws.
Qed.

Lemma blank_text_defaults_witness :
  whitespace_only sample_blank /\
  parse_expense_data sample_now sample_pd sample_blank =
  Ok {| amount := 0%Q;
        date := str "2026-11-03";
        vendor := str "Unknown";
        description := [] |}.
Proof.
  assert (H : whitespace_only sample_blank) by (repeat constructor).
  split; [exact H |].
  exact (blank_text_defaults sample_now sample_pd sample_blank H).
Defined.


(** ** Further properties of the extraction and of the categorizer *)

Lemma categorize_loop_label : forall items text,
  In (categorize_loop items text) (map fst items) \/
  categorize_loop items text = str "other".
Proof.
  induction items as [| [c kws] items IH]; intro text; simpl.
  - right. reflexivity.
  - destruct (any (fun keyword => contains keyword text) kws).
    + left. left. reflexivity.
    + destruct (IH text) as [H | H]; [left; right; exact H | right; exact H].
Qed.

Lemma categorize_expense_label : forall vendor0 description0,
  In (categorize_expense vendor0 description0) (map fst EXPENSE_CATEGORIES).
Proof.
  intros vendor0 description0. unfold categorize_expense.
  destruct (categorize_loop_label EXPENSE_CATEGORIES
              (lower (vendor0 ++ str " " ++ description0))) as [H | H].
  - exact H.
  - rewrite H. simpl. tauto.
Qed.

(** X1. The label [categorize_expense] returns is always one of the seven
    keys of [EXPENSE_CATEGORIES], and a label other than "other" is
    returned only when one of its keywords occurs in the lower-cased
    vendor, space and description. *)
Theorem categorize_label_in_taxonomy : forall vendor0 description0,
  In (categorize_expense vendor0 description0) (map fst EXPENSE_CATEGORIES) /\
  (categorize_expense vendor0 description0 = str "other" \/
   exists keywords,
     In (categorize_expense vendor0 description0, keywords) EXPENSE_CATEGORIES /\
     keyword_hit keywords (lower (vendor0 ++ str " " ++ description0))).
Proof.
  intros vendor0 description0. split; [apply categorize_expense_label |].
  unfold categorize_expense.
  destruct (categorize_loop_cases EXPENSE_CATEGORIES
              (lower (vendor0 ++ str " " ++ description0)))
    as [(pre & c & kws & post & Hs & Hpre & Hhit) | Hall].
  - right. exists kws.
    rewrite Hs at 1. rewrite (categorize_loop_first pre c kws post _ Hpre Hhit).
    split; [| exact Hhit].
    rewrite Hs. apply in_or_app. right. left. reflexivity.
  - left. apply categorize_loop_none. exact Hall.
Qed.

(** X2. [categorize_expense] does not see letter case: vendors and
    descriptions that agree once lower-cased get the same label. *)
Theorem categorize_ignores_case : forall vendor1 description1 vendor2 description2,
  lower vendor1 = lower vendor2 ->
  lower description1 = lower description2 ->
  categorize_expense vendor1 description1 = categorize_expense vendor2 description2.
Proof.
  intros vendor1 description1 vendor2 description2 Hv Hd.
  unfold categorize_expense. rewrite !lower_app, Hv, Hd. reflexivity.
Qed.

Lemma categorize_ignores_case_witness :
  lower (str "UBER") = lower (str "uber") /\
  lower (str "Trip To The Airport") = lower (str "trip to the airport") /\
  categorize_expense (str "UBER") (str "Trip To The Airport") =
  categorize_expense (str "uber") (str "trip to the airport").
Proof.
  split; [reflexivity |]. split; [reflexivity |].
  exact (categorize_ignores_case (str "UBER") (str "Trip To The Airport")
           (str "uber") (str "trip to the airport") eq_refl eq_refl).
Defined.

Lemma substring_refl : forall s, substring s s.
Proof. intro s. exists [], []. rewrite app_nil_r. reflexivity. Qed.

Lemma substring_trans : forall a b c, substring a b -> substring b c -> substring a c.
Proof.
  intros a b c (p1 & q1 & H1) (p2 & q2 & H2). subst.
  exists (p2 ++ p1), (q1 ++ q2). rewrite <- !app_assoc. reflexivity.
Qed.

Lemma lstrip_suffix : forall s, exists ws, s = ws ++ lstrip s.
Proof.
  induction s as [| c s [ws IH]]; simpl.
  - exists []. reflexivity.
  - destruct (isspace c).
    + exists (c :: ws). simpl. congruence.
    + exists []. reflexivity.
Qed.

Lemma rstrip_prefix : forall s, exists ws, s = rstrip s ++ ws.
Proof.
  intro s. unfold rstrip. destruct (lstrip_suffix (rev s)) as [ws H].
  exists (rev ws). rewrite <- rev_app_distr, <- H, rev_involutive. reflexivity.
Qed.

(** [strip] keeps a contiguous part of the string. *)
Lemma strip_substring : forall s, substring (strip s) s.
Proof.
  intro s. unfold strip.
  destruct (lstrip_suffix s) as [ws1 H1].
  destruct (rstrip_prefix (lstrip s)) as [ws2 H2].
  exists ws1, ws2. rewrite <- H2. exact H1.
Qed.

Lemma split_on_pieces : forall sep s,
  match split_on sep s with
  | [] => False
  | w :: ws => (exists rest, s = w ++ rest) /\ forall p, In p ws -> substring p s
  end.
Proof.
  intros sep. induction s as [| c s IH]; simpl.
  - split; [exists []; reflexivity | intros p []].
  - destruct (split_on sep s) as [| w ws]; [contradiction |].
    destruct IH as [[rest Hrest] Hws].
    destruct (Ascii.eqb c sep).
    + split; [exists (c :: s); reflexivity |].
      intros p [Hp | Hp].
      * subst p. exists [c], rest. simpl. congruence.
      * destruct (Hws p Hp) as (a & b & H). exists (c :: a), b. simpl. congruence.
    + split; [exists rest; simpl; congruence |].
      intros p Hp. destruct (Hws p Hp) as (a & b & H).
      exists (c :: a), b. simpl. congruence.
Qed.

Lemma split_on_substring : forall sep s p, In p (split_on sep s) -> substring p s.
Proof.
  intros sep s p Hp. pose proof (split_on_pieces sep s) as H.
  destruct (split_on sep s) as [| w ws]; [contradiction |].
  destruct H as [[rest Hrest] Hws].
  destruct Hp as [Hp | Hp].
  - subst p. exists [], rest. exact Hrest.
  - apply Hws. exact Hp.
Qed.

Lemma substring_ci_mono : forall k a b,
  substring a b -> substring_ci k a -> substring_ci k b.
Proof.
  intros k a b (p & q & Hb) (pre & m & post & Ha & Hm). subst.
  exists (p ++ pre), m, (post ++ q). rewrite <- !app_assoc. auto.
Qed.

(** The lines the vendor loop looks at are stripped pieces of the text. *)
Lemma vendor_line_origin : forall text pre line post,
  map strip (split_on "010" (strip text)) = pre ++ line :: post ->
  substring line text /\ exists l0, line = strip l0.
Proof.
  intros text pre line post H.
  assert (Hin : In line (map strip (split_on "010" (strip text)))).
  { rewrite H. apply in_or_app. right. left. reflexivity. }
  apply in_map_iff in Hin. destruct Hin as (l0 & Hl0 & Hin).
  split; [| exists l0; auto].
  subst line.
  eapply substring_trans; [apply strip_substring |].
  eapply substring_trans; [eapply split_on_substring; exact Hin |].
  apply strip_substring.
Qed.

Lemma first_word_of_stripped : forall l0 w,
  first_word (strip l0) w -> exists rest, strip l0 = w ++ rest.
Proof.
  intros l0 w (ws & rest & Hl & Hws & Hne & _).
  destruct ws as [| c ws].
  - exists rest. exact Hl.
  - exfalso. simpl in Hl. apply strip_head in Hl.
    inversion Hws; subst. congruence.
Qed.

(** X3. The vendor is "Unknown" or a word that occurs in the text as it is;
    it holds no whitespace, does not begin with a digit, and contains
    neither "receipt" nor "tax" in any mixture of cases. *)
Theorem vendor_shape : forall now pd text,
  exists r,
    parse_expense_data now pd text = Ok r /\
    (vendor r = str "Unknown" \/ substring (vendor r) text) /\
    Forall (fun c => isspace c = false) (vendor r) /\
    (exists c s, vendor r = c :: s /\ isdigit c = false) /\
    ~ substring_ci (str "receipt") (vendor r) /\
    ~ substring_ci (str "tax") (vendor r).
Proof.
  intros now pd text.
  destruct (extract_total_amount_nonneg text) as (a & Ha & _).
  destruct (extract_date_ok now pd text) as (d & Hd).
  destruct (extract_vendor_cases text)
    as [(pre & line & post & w & Hs & _ & Hl & Hw & Hv) | [_ Hv]];
    (eexists; split; [apply parse_expense_data_fields; eassumption |]);
    cbn [vendor].
  - destruct (vendor_line_origin text pre line post Hs) as [Hsub [l0 Hl0]].
    subst line.
    destruct (first_word_of_stripped l0 w Hw) as [rest Hrest].
    assert (Hwl : substring w (strip l0)) by (exists [], rest; exact Hrest).
    destruct Hl as (Hnum & _ & Hrec & Htax).
    pose proof Hw as (_ & _ & _ & _ & Hne & Hns & _).
    splits.
    + right. eapply substring_trans; eassumption.
    + exact Hns.
    + destruct w as [| c s]; [congruence |].
      exists c, s. split; [reflexivity |].
      destruct (isdigit c) eqn:Hc; [| reflexivity].
      exfalso. apply Hnum. apply numeric_prefix_iff.
      exists c, (s ++ rest). split; [left; rewrite Hrest; reflexivity | exact Hc].
    + intro H. apply Hrec. eapply substring_ci_mono; eassumption.
    + intro H. apply Htax. eapply substring_ci_mono; eassumption.
  - splits.
    + left. reflexivity.
    + repeat constructor.
    + exists "U"%char, (str "nknown"). split; reflexivity.
    + apply contains_lower_false. reflexivity.
    + apply contains_lower_false. reflexivity.
Qed.

(** X4. The description is the stripped text cut at 200 characters: a prefix
    of it, the whole of it when it has at most 200 characters, never longer
    than 200, and never beginning with whitespace. *)
Theorem description_bounds : forall now pd text,
  exists r,
    parse_expense_data now pd text = Ok r /\
    length (description r) <= 200 /\
    (exists rest, strip text = description r ++ rest) /\
    (length (strip text) <= 200 -> description r = strip text) /\
    (forall c s, description r = c :: s -> isspace c = false).
Proof.
  intros now pd text.
  destruct (extract_total_amount_nonneg text) as (a & Ha & _).
  destruct (extract_date_ok now pd text) as (d & Hd).
  destruct (extract_vendor_nonempty text) as (v & Hv & _).
  eexists. split; [apply parse_expense_data_fields; eassumption |].
  cbn [description]. splits.
  - apply firstn_le_length.
  - exists (skipn 200 (strip text)). symmetry. apply firstn_skipn.
  - intro H. apply firstn_all2. exact H.
  - intros c s H. destruct (strip text) as [| c' s'] eqn:Hs.
    + rewrite firstn_nil in H. discriminate.
    + change (firstn 200 (c' :: s')) with (c' :: firstn 199 s') in H.
      inversion H; subst. eapply strip_head. exact Hs.
Qed.

Lemma searched_pattern_digit : forall p, In p searched_patterns ->
  forall b m, Lang p b m -> exists c, In c m /\ isdigit c = true.
Proof.
  intros p Hp b m HL. simpl in Hp.
  destruct Hp as [Hp | [Hp | [Hp | [Hp | [Hp | []]]]]]; subst p.
  1-4: apply Lang_cat_rep_head in HL; [| lia];
       destruct HL as (a & m' & Hm & Ha); exists a; subst m;
       split; [left; reflexivity | exact Ha].
  destruct HL as (m1 & t1 & E1 & _ & m2 & t2 & E2 & _ & ds & t3 & E3 & Hds & _).
  apply Lang_digits_head in Hds; [| lia].
  destruct Hds as (c & ds' & Hds & Hc). subst.
  exists c. split; [| exact Hc].
  apply in_or_app. right. apply in_or_app. right. left. reflexivity.
Qed.

Lemma digit_free_no_match : forall p, In p searched_patterns ->
  forall text, Forall (fun c => isdigit c = false) text -> ~ matches_anywhere p text.
Proof.
  intros p Hp text Hnd (pre & m & post & Hs & HL).
  destruct (searched_pattern_digit p Hp _ _ HL) as (c & Hin & Hc).
  rewrite Forall_forall in Hnd.
  rewrite (Hnd c) in Hc; [discriminate |].
  subst text. apply in_or_app. right. apply in_or_app. left. exact Hin.
Qed.

Lemma replace_comma_app : forall a b,
  replace_char "," "." (a ++ b) = replace_char "," "." a ++ replace_char "," "." b.
Proof. intros a b. apply map_app. Qed.

Lemma replace_comma_digit_free : forall text,
  Forall (fun c => isdigit c = false) text ->
  Forall (fun c => isdigit c = false) (replace_char "," "." text).
Proof.
  intros text H. unfold replace_char. apply Forall_map.
  eapply Forall_impl; [| exact H].
  intros c Hc. simpl. destruct (Ascii.eqb c ","); [reflexivity | exact Hc].
Qed.

Lemma replace_comma_digits : forall s,
  Forall (fun c => isdigit c = true) s -> replace_char "," "." s = s.
Proof.
  induction s as [| c s IH]; intro H; simpl.
  - reflexivity.
  - inversion H as [| ? ? Hc Hs]; subst.
    fold (replace_char "," "." s). rewrite IH by assumption.
    destruct (Ascii.eqb c ",") eqn:E; [| reflexivity].
    apply Ascii.eqb_eq in E. subst c. discriminate.
Qed.

Lemma amount_shaped_head : forall m,
  amount_shaped m -> exists c m', m = c :: m' /\ isdigit c = true.
Proof.
  intros m (ip & d1 & d2 & Hm & Hne & Hall & _).
  destruct ip as [| c ip]; [congruence |].
  inversion Hall; subst. simpl. eauto.
Qed.

(** Characters that are not digits start no token. *)
Lemma leftmost_matches_skip : forall p s ms,
  Forall (fun c => isdigit c = false) p ->
  leftmost_matches amount_shaped s ms ->
  leftmost_matches amount_shaped (p ++ s) ms.
Proof.
  induction p as [| c p IH]; intros s ms Hp H; simpl.
  - exact H.
  - inversion Hp as [| ? ? Hc Hp']; subst.
    apply lm_skip; [| apply IH; assumption].
    intros m rest E Hm. apply amount_shaped_head in Hm.
    destruct Hm as (a & m' & Hm & Ha). subst m. simpl in E.
    inversion E; subst. congruence.
Qed.

Lemma extract_total_amount_digit_free : forall text,
  Forall (fun c => isdigit c = false) text -> extract_total_amount text = Ok 0%Q.
Proof.
  intros text Hnd.
  destruct (extract_total_amount_spec text)
    as (ms & vs & a & Hscan & _ & _ & Ha & Hnil & _).
  rewrite Ha. f_equal. apply Hnil.
  eapply leftmost_matches_none; [exact Hscan |].
  intros pre m post Hs Hm.
  apply (digit_free_no_match amount_re (or_introl eq_refl)
           (replace_char "," "." text) (replace_comma_digit_free text Hnd)).
  exists pre, m, post. split; [exact Hs |].
  apply amount_shaped_Lang. exact Hm.
Qed.

(** X5. A text without a digit has no amount and no date in it: the amount
    is 0.0 and the date is the date of the clock, whatever the text says
    otherwise. *)
Theorem digit_free_text_defaults : forall now pd text,
  Forall (fun c => isdigit c = false) text ->
  exists r,
    parse_expense_data now pd text = Ok r /\
    amount r = 0%Q /\ date r = strftime_ymd (dt_date now).
Proof.
  intros now pd text Hnd.
  destruct (extract_vendor_nonempty text) as (v & Hv & _).
  eexists. split.
  - apply parse_expense_data_fields; [| | exact Hv].
    + apply extract_total_amount_digit_free. exact Hnd.
    + unfold extract_date.
      destruct (date_loop date_patterns text) as [m |] eqn:Hd; [| reflexivity].
      exfalso. apply date_loop_some in Hd.
      destruct Hd as (i & p & pre & Hn & Hocc & _).
      apply nth_error_In in Hn.
      apply (digit_free_no_match p (or_intror Hn) text Hnd).
      exists pre, m. exact Hocc.
  - split; reflexivity.
Qed.

Lemma digit_free_text_defaults_witness :
  Forall (fun c => isdigit c = false) (str "Joe's Diner, paid in cash on Jan fifth") /\
  exists r,
    parse_expense_data sample_now sample_pd
      (str "Joe's Diner, paid in cash on Jan fifth") = Ok r /\
    amount r = 0%Q /\ date r = strftime_ymd (dt_date sample_now).
Proof.
  assert (H : Forall (fun c => isdigit c = false)
                (str "Joe's Diner, paid in cash on Jan fifth"))
    by (repeat constructor).
  split; [exact H |].
  exact (digit_free_text_defaults sample_now sample_pd _ H).
Defined.

(** X6. A figure written with a thousands comma, as in 1,234.56, is not read
    as one amount: the comma becomes a decimal point, the tokens are the
    digits before the comma with the next two digits, and the third digit
    with the two decimals, and the amount is the larger of these two. *)
Theorem thousands_comma_is_split : forall now pd pre ip b c d e f post,
  Forall (fun x => isdigit x = false) pre ->
  Forall (fun x => isdigit x = false) post ->
  ip <> [] ->
  Forall (fun x => isdigit x = true) (ip ++ [b; c; d; e; f]) ->
  exists r,
    parse_expense_data now pd
      (pre ++ ip ++ [","%char; b; c; d; "."%char; e; f] ++ post) = Ok r /\
    is_max_of (amount r)
      [ Qmake (100 * Z_of_digits ip + 10 * Z.of_nat (digit_val b)
               + Z.of_nat (digit_val c)) 100;
        Qmake (100 * Z_of_digits [d] + 10 * Z.of_nat (digit_val e)
               + Z.of_nat (digit_val f)) 100 ].
Proof.
  intros now pd pre ip b c d e f post Hpre Hpost Hne Hdig.
  apply Forall_app in Hdig. destruct Hdig as [Hip Hrest].
  inversion Hrest as [| ? ? Hb H1]; subst. inversion H1 as [| ? ? Hc H2]; subst.
  inversion H2 as [| ? ? Hd H3]; subst. inversion H3 as [| ? ? He H4]; subst.
  inversion H4 as [| ? ? Hf _]; subst.
  set (text := pre ++ ip ++ [","%char; b; c; d; "."%char; e; f] ++ post).
  set (tok1 := ip ++ ["."%char; b; c]). set (tok2 := [d] ++ ["."%char; e; f]).
  assert (Ht : replace_char "," "." text
               = replace_char "," "." pre ++ tok1 ++ tok2
                 ++ replace_char "," "." post ++ []).
  { unfold text, tok1, tok2. rewrite !replace_comma_app.
    rewrite (replace_comma_digits ip Hip), app_nil_r.
    assert (Hmid : replace_char "," "." [","%char; b; c; d; "."%char; e; f]
                   = ["."%char; b; c; d; "."%char; e; f]).
    { change [","%char; b; c; d; "."%char; e; f]
        with ([","%char] ++ [b; c; d] ++ ["."%char] ++ [e; f]).
      rewrite !replace_comma_app.
      rewrite (replace_comma_digits [b; c; d]) by (repeat constructor; assumption).
      rewrite (replace_comma_digits [e; f]) by (repeat constructor; assumption).
      reflexivity. }
    rewrite Hmid. rewrite <- !app_assoc. reflexivity. }
  assert (Hs1 : amount_shaped tok1).
  { exists ip, b, c. splits; auto. }
  assert (Hs2 : amount_shaped tok2).
  { exists [d], e, f. splits; auto. discriminate. }
  assert (Hscan : leftmost_matches amount_shaped (replace_char "," "." text)
                    [tok1; tok2]).
  { rewrite Ht.
    apply leftmost_matches_skip; [apply replace_comma_digit_free; exact Hpre |].
    apply lm_hit; [exact Hs1 | apply amount_shaped_nonempty; exact Hs1 |].
    apply lm_hit; [exact Hs2 | apply amount_shaped_nonempty; exact Hs2 |].
    apply leftmost_matches_skip; [apply replace_comma_digit_free; exact Hpost |].
    constructor. }
  destruct (extract_total_amount_spec text)
    as (ms & vs & a & Hscan' & Hval & _ & Ha & _ & Hmax).
  assert (Hms : ms = [tok1; tok2])
    by (eapply leftmost_amounts_unique; eassumption).
  subst ms.
  assert (Hvs : vs = [ Qmake (100 * Z_of_digits ip + 10 * Z.of_nat (digit_val b)
                              + Z.of_nat (digit_val c)) 100;
                       Qmake (100 * Z_of_digits [d] + 10 * Z.of_nat (digit_val e)
                              + Z.of_nat (digit_val f)) 100 ]).
  { eapply amount_values_functional; [exact Hval |].
    constructor; [exists ip, b, c; auto |].
    constructor; [exists [d], e, f; auto | constructor]. }
  subst vs.
  destruct (extract_date_ok now pd text) as (dt & Hdt).
  destruct (extract_vendor_nonempty text) as (v & Hv & _).
  eexists. split; [apply parse_expense_data_fields; eassumption |].
  cbn [amount]. apply Hmax. discriminate.
Qed.

Lemma thousands_comma_is_split_witness :
  exists r,
    parse_expense_data sample_now sample_pd (str "TOTAL $1,234.56 USD") = Ok r /\
    is_max_of (amount r) [1.23%Q; 4.56%Q].
Proof.
  apply (thousands_comma_is_split sample_now sample_pd (str "TOTAL $") (str "1")
           "2"%char "3"%char "4"%char "5"%char "6"%char (str " USD")).
  - repeat constructor.
  - repeat constructor.
  - discriminate.
  - repeat constructor.
Defined.

(** ** Further properties of the handler and of the export *)

(** X7. For text that is not blank the handler stores exactly one new row,
    with the extracted fields, the category, the whole raw text and the
    file name, and shows the record. Without the export button the sheet is
    left alone; with it, either the row of the record is appended to the
    sheet, or the export fails, and then the stored row stays, the sheet is
    unchanged and both error messages are shown. *)
Theorem nonblank_text_outcome :
  forall now pd (service remote : Type) (get : result service)
         (append : service -> append_request -> remote -> result remote)
         raw_text filename button (st : app_state remote),
  ~ whitespace_only raw_text ->
  exists r st',
    parse_expense_data now pd raw_text = Ok r /\
    handle_raw_text now pd get append raw_text filename button st = Ok st' /\
    let category := categorize_expense (vendor r) (description r) in
    let shown :=
      [ UiSuccess (str "Receipt processed and stored successfully!");
        UiWrite (vendor r) (date r) (amount r) category ] in
    db st' = db st ++ [ {| row_date := date r;
                           row_amount := amount r;
                           row_vendor := vendor r;
                           row_category := category;
                           row_raw_text := raw_text;
                           row_filename := filename |} ] /\
    ((button = false /\ sheet st' = sheet st /\ ui st' = ui st ++ shown)
     \/ (button = true /\
         exists srv, get = Ok srv /\
         append srv {| spreadsheetId := str "YOUR_SPREADSHEET_ID_HERE";
                       range := str "Sheet1";
                       valueInputOption := str "USER_ENTERED";
                       insertDataOption := str "INSERT_ROWS";
                       body_values := [[CStr (date r); CFloat (amount r);
                                        CStr (vendor r); CStr category]] |}
           (sheet st) = Ok (sheet st') /\
         ui st' = ui st ++ shown
                  ++ [UiSuccess (str "Expense exported to Google Sheets!")])
     \/ (button = true /\ sheet st' = sheet st /\
         exists e,
           ui st' = ui st ++ shown
                    ++ [ UiErrorExn (str "Error exporting to Google Sheets: ") e;
                         UiError (str "Failed to export to Google Sheets.") ])).
Proof.
  intros now pd service remote get append raw_text filename button st Hnb.
  destruct (extract_total_amount_nonneg raw_text) as (a & Ha & _).
  destruct (extract_date_ok now pd raw_text) as (d & Hd).
  destruct (extract_vendor_nonempty raw_text) as (v & Hv & _).
  pose proof (parse_expense_data_fields now pd raw_text a d v Ha Hd Hv) as Hp.
  remember {| amount := a; date := d; vendor := v;
              description := firstn 200 (strip raw_text) |} as r eqn:Hr.
  exists r. unfold handle_raw_text.
  destruct (strip raw_text) as [| c0 s0] eqn:Hs.
  { exfalso. apply Hnb. apply strip_nil_whitespace_only. exact Hs. }
  rewrite Hp. cbn [bind].
  destruct button.
  - unfold export_to_google_sheets, export_try.
    destruct get as [srv | e]; cbn [bind try_except].
    2:{ eexists. split; [reflexivity |]. split; [reflexivity |].
        cbv zeta. split; [reflexivity |]. right. right.
        split; [reflexivity |]. split; [reflexivity |]. exists e.
        cbn [ui st_show st_insert]. rewrite <- !app_assoc. reflexivity. }
    assert (Hg1 : dict_get (dict_set (expense_dict r) (str "category")
                              (CStr (categorize_expense (vendor r) (description r))))
                    (str "date") = Ok (CStr (date r))) by reflexivity.
    assert (Hg2 : dict_get (dict_set (expense_dict r) (str "category")
                              (CStr (categorize_expense (vendor r) (description r))))
                    (str "amount") = Ok (CFloat (amount r))) by reflexivity.
    assert (Hg3 : dict_get (dict_set (expense_dict r) (str "category")
                              (CStr (categorize_expense (vendor r) (description r))))
                    (str "vendor") = Ok (CStr (vendor r))) by reflexivity.
    assert (Hg4 : dict_get (dict_set (expense_dict r) (str "category")
                              (CStr (categorize_expense (vendor r) (description r))))
                    (str "category")
                  = Ok (CStr (categorize_expense (vendor r) (description r))))
      by reflexivity.
    rewrite Hg1, Hg2, Hg3, Hg4. cbn [bind].
    match goal with
    | |- context [append srv ?rq ?sh] =>
        destruct (append srv rq sh) as [sheet' | e] eqn:Happ
    end; cbn [bind try_except].
    + eexists. split; [reflexivity |]. split; [reflexivity |].
      cbv zeta. split; [reflexivity |]. right. left.
      split; [reflexivity |]. exists srv. split; [reflexivity |].
      split; [exact Happ |].
      cbn [ui st_show st_insert]. rewrite <- !app_assoc. reflexivity.
    + eexists. split; [reflexivity |]. split; [reflexivity |].
      cbv zeta. split; [reflexivity |]. right. right.
      split; [reflexivity |]. split; [reflexivity |]. exists e.
      cbn [ui st_show st_insert]. rewrite <- !app_assoc. reflexivity.
  - eexists. split; [reflexivity |]. split; [reflexivity |].
    cbv zeta. split; [reflexivity |]. left.
    split; [reflexivity |]. split; [reflexivity |].
    cbn [ui st_show st_insert]. rewrite <- !app_assoc. reflexivity.
Qed.

Lemma nonblank_text_outcome_witness :
  ~ whitespace_only sample_receipt /\
  exists r st',
    parse_expense_data sample_now sample_pd sample_receipt = Ok r /\
    handle_raw_text sample_now sample_pd (Raise OtherException) sample_append
      sample_receipt (str "receipt.png") true sample_state = Ok st' /\
    length (db st') = 1.
Proof.
  assert (H : ~ whitespace_only sample_receipt).
  { intro H. inversion H as [| ? ? Hc _]. discriminate. }
  split; [exact H |].
  destruct (nonblank_text_outcome sample_now sample_pd unit (list (list cell))
              (Raise OtherException) sample_append sample_receipt
              (str "receipt.png") true sample_state H)
    as (r & st' & Hp & Hh & Hdb & _).
  exists r, st'. split; [exact Hp |]. split; [exact Hh |].
  rewrite Hdb. reflexivity.
Defined.

Lemma handle_raw_text_cases :
  forall now pd (service remote : Type) (get : result service)
         (append : service -> append_request -> remote -> result remote)
         raw_text filename button (st : app_state remote),
  (whitespace_only raw_text /\
   handle_raw_text now pd get append raw_text filename button st =
   Ok (st_show (UiWarning (str "No text detected. Try a clearer image or PDF.")) st))
  \/ (~ whitespace_only raw_text /\
      exists r st',
        parse_expense_data now pd raw_text = Ok r /\
        handle_raw_text now pd get append raw_text filename button st = Ok st' /\
        db st' = db st ++ [ {| row_date := date r;
                               row_amount := amount r;
                               row_vendor := vendor r;
                               row_category :=
                                 categorize_expense (vendor r) (description r);
                               row_raw_text := raw_text;
                               row_filename := filename |} ]).
Proof.
  intros now pd service remote get append raw_text filename button st.
  destruct (strip raw_text) as [| c s] eqn:Hs.
  - left. assert (H : whitespace_only raw_text)
      by (apply strip_nil_whitespace_only; exact Hs).
    split; [exact H |]. apply handle_raw_text_blank. exact H.
  - right. assert (H : ~ whitespace_only raw_text).
    { intro H. apply strip_whitespace_only in H. congruence. }
    split; [exact H |]. apply handle_raw_text_nonblank. exact H.
Qed.

Lemma parse_expense_data_well_formed : forall now pd text r,
  valid_date (dt_date now) = true ->
  (forall s d, pd s = Ok (Timestamp d) -> valid_date d = true) ->
  parse_expense_data now pd text = Ok r ->
  is_iso_date (date r) = true /\ (0 <= amount r)%Q /\ vendor r <> [].
Proof.
  intros now pd text r Hnow Hpd Hr.
  destruct (extract_total_amount_nonneg text) as (a & Ha & Ha0).
  destruct (extract_date_iso now pd text Hnow Hpd) as (d & Hd & Hiso).
  destruct (extract_vendor_nonempty text) as (v & Hv & Hne).
  rewrite (parse_expense_data_fields now pd text a d v Ha Hd Hv) in Hr.
  inversion Hr; subst r. simpl. auto.
Qed.

(** X8. The handler keeps the table well formed: when every stored row has a
    valid [YYYY-MM-DD] date, an amount that is not negative, a vendor that
    is not empty and a category of the taxonomy, the same holds after any
    text has been handled (the clock and the date parser producing calendar
    dates with four-digit years). *)
Theorem stored_rows_stay_well_formed :
  forall now pd (service remote : Type) (get : result service)
         (append : service -> append_request -> remote -> result remote)
         raw_text filename button (st st' : app_state remote),
  valid_date (dt_date now) = true ->
  (forall s d, pd s = Ok (Timestamp d) -> valid_date d = true) ->
  Forall row_ok (db st) ->
  handle_raw_text now pd get append raw_text filename button st = Ok st' ->
  Forall row_ok (db st').
Proof.
  intros now pd service remote get append raw_text filename button st st'
         Hnow Hpd Hdb Hh.
  destruct (handle_raw_text_cases now pd service remote get append
              raw_text filename button st)
    as [[_ H] | (_ & r & st'' & Hp & H & Hrows)]; rewrite H in Hh;
    inversion Hh; subst st'.
  - exact Hdb.
  - rewrite Hrows. apply Forall_app. split; [exact Hdb |].
    constructor; [| constructor].
    destruct (parse_expense_data_well_formed now pd raw_text r Hnow Hpd Hp)
      as (Hiso & Ha & Hv).
    unfold row_ok. cbn [row_date row_amount row_vendor row_category].
    splits; auto. apply categorize_expense_label.
Qed.

Lemma sample_pd_valid :
  forall s d, sample_pd s = Ok (Timestamp d) -> valid_date d = true.
Proof.
  intros s d H. unfold sample_pd in H.
  destruct (str_eqb s (str "2024-01-05")); inversion H; reflexivity.
Defined.

Lemma stored_rows_stay_well_formed_witness :
  exists st',
    handle_raw_text sample_now sample_pd (Ok tt) sample_append
      sample_receipt (str "receipt.png") true sample_state = Ok st' /\
    Forall row_ok (db st').
Proof.
  eexists. split; [vm_compute; reflexivity |].
  eapply (stored_rows_stay_well_formed sample_now sample_pd unit (list (list cell))
            (Ok tt) sample_append sample_receipt (str "receipt.png") true
            sample_state).
  - reflexivity.
  - exact sample_pd_valid.
  - constructor.
  - vm_compute. reflexivity.
Defined.

(** X9. The dict [parse_expense_data] returns has no key [category]: passed
    to [export_to_google_sheets] as it is, the export returns [False]
    whatever the service does, nothing is appended to the sheet and the
    table is left alone. *)
Theorem export_without_category_fails :
  forall (service remote : Type) (get : result service)
         (append : service -> append_request -> remote -> result remote)
         (r : expense) spreadsheet_id (st : app_state remote),
  exists e,
    export_to_google_sheets get append (expense_dict r) spreadsheet_id st =
    Ok (false,
        st_show (UiErrorExn (str "Error exporting to Google Sheets: ") e) st) /\
    (e = KeyError \/ get = Raise e).
Proof.
  intros service remote get append r spreadsheet_id st.
  unfold export_to_google_sheets, export_try.
  destruct get as [srv | e]; cbn [bind try_except].
  - exists KeyError. split; [reflexivity | left; reflexivity].
  - exists e. split; [reflexivity | right; reflexivity].
Qed.

(** ** The OCR wrappers and the upload section *)

Lemma pdf_loop_cases :
  forall (image : Type) (image_to_string : image -> result pystr) images text,
  (exists pages,
      Forall2 (fun img page => image_to_string img = Ok page) images pages /\
      pdf_loop image_to_string images text =
      Ok (text ++ concat (map (fun page => page ++ ["010"%char]) pages)))
  \/ (exists e img,
        In img images /\ image_to_string img = Raise e /\
        pdf_loop image_to_string images text = Raise e).
Proof.
  intros image image_to_string.
  induction images as [| img images IH]; intro text; simpl.
  - left. exists []. split; [constructor |]. simpl. rewrite app_nil_r. reflexivity.
  - destruct (image_to_string img) as [page | e] eqn:Hp; cbn [bind].
    + destruct (IH (text ++ page ++ ["010"%char]))
        as [(pages & Hall & Hl) | (e & img' & Hin & He & Hl)].
      * left. exists (page :: pages). split; [constructor; assumption |].
        rewrite Hl. simpl. rewrite <- !app_assoc. reflexivity.
      * right. exists e, img'. auto.
    + right. exists e, img. auto.
Qed.

Lemma extract_text_from_pdf_cases :
  forall (image remote : Type) (image_to_string : image -> result pystr)
         (convert_from_path : pystr -> result (list image))
         pdf_path (st : app_state remote),
  (exists images pages,
      convert_from_path pdf_path = Ok images /\
      Forall2 (fun img page => image_to_string img = Ok page) images pages /\
      extract_text_from_pdf image_to_string convert_from_path pdf_path st =
      Ok (concat (map (fun page => page ++ ["010"%char]) pages), st))
  \/ (exists e,
        (convert_from_path pdf_path = Raise e \/
         exists images img,
           convert_from_path pdf_path = Ok images /\ In img images /\
           image_to_string img = Raise e) /\
        extract_text_from_pdf image_to_string convert_from_path pdf_path st =
        Ok ([], st_show (UiErrorExn (str "Error processing PDF: ") e) st)).
Proof.
  intros image remote image_to_string convert_from_path pdf_path st.
  unfold extract_text_from_pdf.
  destruct (convert_from_path pdf_path) as [images | e] eqn:Hc; cbn [bind try_except].
  - destruct (pdf_loop_cases image image_to_string images [])
      as [(pages & Hall & Hl) | (e & img & Hin & He & Hl)]; rewrite Hl;
      cbn [bind try_except].
    + left. exists images, pages. auto.
    + right. exists e. split; [| reflexivity]. right. exists images, img. auto.
  - right. exists e. split; [left; reflexivity | reflexivity].
Qed.

(** X10. [extract_text_from_pdf] never raises and is all or nothing: either
    the PDF is converted and every page is recognized, and the text is the
    pages in order, each followed by a newline; or a step fails, and then
    the text is empty, whatever pages had been recognized before, and the
    error is shown. *)
Theorem pdf_text_all_or_nothing :
  forall (image remote : Type) (image_to_string : image -> result pystr)
         (convert_from_path : pystr -> result (list image))
         pdf_path (st : app_state remote),
  (exists images pages,
      convert_from_path pdf_path = Ok images /\
      Forall2 (fun img page => image_to_string img = Ok page) images pages /\
      extract_text_from_pdf image_to_string convert_from_path pdf_path st =
      Ok (concat (map (fun page => page ++ ["010"%char]) pages), st))
  \/ (exists e,
        (convert_from_path pdf_path = Raise e \/
         exists images img,
           convert_from_path pdf_path = Ok images /\ In img images /\
           image_to_string img = Raise e) /\
        extract_text_from_pdf image_to_string convert_from_path pdf_path st =
        Ok ([], st_show (UiErrorExn (str "Error processing PDF: ") e) st)).
Proof.
  exact extract_text_from_pdf_cases.
Qed.

Lemma concat_whitespace_only : forall pages,
  Forall whitespace_only pages ->
  whitespace_only (concat (map (fun page => page ++ ["010"%char]) pages)).
Proof.
  induction pages as [| page pages IH]; intro H; simpl.
  - constructor.
  - inversion H as [| ? ? Hp Hps]; subst.
    apply whitespace_only_app. split; [| apply IH; exact Hps].
    apply whitespace_only_app. split; [exact Hp | repeat constructor].
Qed.




Lemma handle_raw_text_ok :
  forall now pd (service remote : Type) (get : result service)
         (append : service -> append_request -> remote -> result remote)
         raw_text filename button (st : app_state remote),
  exists st', handle_raw_text now pd get append raw_text filename button st = Ok st'.
Proof.
  intros now pd service remote get append raw_text filename button st.
  destruct (handle_raw_text_cases now pd service remote get append
              raw_text filename button st)
    as [[_ H] | (_ & r & st' & _ & H & _)]; eauto.
Qed.





Lemma endswith_iff : forall suffix s,
  endswith suffix s = true <-> exists base, s = base ++ suffix.
Proof.
  intros suffix s. unfold endswith. rewrite startswith_iff. split.
  - intros [post H]. exists (rev post).
    rewrite <- (rev_involutive s), H, rev_app_distr, rev_involutive. reflexivity.
  - intros [base H]. exists (rev base). subst s. apply rev_app_distr.
Qed.

(** The [finally] clause: removing the file if it exists is removing it. *)
Lemma finally_removes : forall p fs,
  (if fs_exists p fs then fs_remove p fs else fs) = fs_remove p fs.
Proof.
  intros p fs. destruct (fs_exists p fs) eqn:E; [reflexivity |].
  unfold fs_exists in E. unfold fs_remove.
  induction fs as [| q fs IH]; [reflexivity |].
  cbn [existsb] in E. apply orb_false_iff in E. destruct E as [E1 E2].
  cbn [filter]. rewrite E1. cbn [negb]. rewrite <- IH by exact E2. reflexivity.
Qed.


Section UploadFacts.

Variable now : datetime.
Variable pd : pystr -> result pd_value.
Variable service : Type.
Variable remote : Type.
Variable get : list pystr -> list pystr * result service.
Variable append : service -> append_request -> remote -> result remote.
Variable image : Type.
Variable image_to_string : image -> result pystr.
Variable os_path_join : pystr -> pystr -> pystr.

Lemma upload_section_some :
  forall (image_open : pystr -> result image)
         (convert_from_path : pystr -> result (list image))
         name button fs (st : app_state remote),
  upload_section now pd get append image_open image_to_string convert_from_path
    os_path_join (Some name) button fs st =
  (fs_remove (os_path_join TEMP_DIR name)
     match (if endswith (str ".pdf") (lower name)
            then extract_text_from_pdf image_to_string convert_from_path
                   (os_path_join TEMP_DIR name) st
            else extract_text_from_image image_open image_to_string
                   (os_path_join TEMP_DIR name) st) with
     | Ok r =>
         if reaches_export now pd (fst r) button
         then fst (get (fs_add (os_path_join TEMP_DIR name) (fs_add TEMP_DIR fs)))
         else fs_add (os_path_join TEMP_DIR name) (fs_add TEMP_DIR fs)
     | Raise _ => fs_add (os_path_join TEMP_DIR name) (fs_add TEMP_DIR fs)
     end,
   r <- (if endswith (str ".pdf") (lower name)
         then extract_text_from_pdf image_to_string convert_from_path
                (os_path_join TEMP_DIR name) st
         else extract_text_from_image image_open image_to_string
                (os_path_join TEMP_DIR name) st) ;;
   handle_raw_text now pd
     (snd (get (fs_add (os_path_join TEMP_DIR name) (fs_add TEMP_DIR fs))))
     append (fst r) name button (snd r)).
Proof.
  intros image_open convert_from_path name button fs st.
  unfold upload_section. cbv zeta. rewrite finally_removes. reflexivity.
Qed.


End UploadFacts.


(** X12. When the OCR library cannot read the uploaded file, whichever
    wrapper the file name selects, the page shows the wrapper's error and
    then the warning for empty text; no row is stored and the sheet is not
    touched. *)
Theorem unreadable_upload_stores_nothing :
  forall now pd (service remote : Type)
         (get : list pystr -> list pystr * result service)
         (append : service -> append_request -> remote -> result remote)
         (image : Type) (image_open : pystr -> result image)
         (image_to_string : image -> result pystr)
         (convert_from_path : pystr -> result (list image))
         (os_path_join : pystr -> pystr -> pystr)
         name button fs (st : app_state remote) e1 e2,
  image_open (os_path_join TEMP_DIR name) = Raise e1 ->
  convert_from_path (os_path_join TEMP_DIR name) = Raise e2 ->
  exists st',
    snd (upload_section now pd get append image_open image_to_string
           convert_from_path os_path_join (Some name) button fs st) = Ok st' /\
    db st' = db st /\ sheet st' = sheet st /\
    (ui st' = ui st ++ [ UiErrorExn (str "Error processing PDF: ") e2;
                         UiWarning (str "No text detected. Try a clearer image or PDF.") ]
     \/ ui st' = ui st ++ [ UiErrorExn (str "Error extracting text: ") e1;
                            UiWarning (str "No text detected. Try a clearer image or PDF.") ]).
Proof.
  intros now pd service remote get append image image_open image_to_string
         convert_from_path os_path_join name button fs st e1 e2 H1 H2.
  rewrite upload_section_some. cbn [snd].
  destruct (endswith (str ".pdf") (lower name)).
  - unfold extract_text_from_pdf. rewrite H2. cbn [bind try_except fst snd].
    rewrite handle_raw_text_blank by constructor.
    eexists. split; [reflexivity |]. cbn [db sheet ui st_show].
    splits; auto. left. rewrite <- app_assoc. reflexivity.
  - unfold extract_text_from_image. rewrite H1. cbn [bind try_except fst snd].
    rewrite handle_raw_text_blank by constructor.
    eexists. split; [reflexivity |]. cbn [db sheet ui st_show].
    splits; auto. right. rewrite <- app_assoc. reflexivity.
Qed.

Lemma unreadable_upload_stores_nothing_witness :
  exists st',
    snd (upload_section sample_now sample_pd sample_get_service sample_append
           (sample_unreadable pystr) sample_ocr (sample_unreadable (list pystr))
           sample_join (Some (str "scan.jpg")) true [] sample_state) = Ok st' /\
    db st' = db sample_state /\ sheet st' = sheet sample_state /\
    (ui st' = ui sample_state
              ++ [ UiErrorExn (str "Error processing PDF: ") OtherException;
                   UiWarning (str "No text detected. Try a clearer image or PDF.") ]
     \/ ui st' = ui sample_state
                 ++ [ UiErrorExn (str "Error extracting text: ") OtherException;
                      UiWarning (str "No text detected. Try a clearer image or PDF.") ]).
Proof.
  exact (unreadable_upload_stores_nothing sample_now sample_pd unit (list (list cell))
           sample_get_service sample_append pystr (sample_unreadable pystr) sample_ocr
           (sample_unreadable (list pystr)) sample_join (str "scan.jpg") true []
           sample_state OtherException OtherException eq_refl eq_refl).
Defined.

Lemma blank_pages :
  forall (image : Type) (image_to_string : image -> result pystr) images pages,
  Forall2 (fun img page => image_to_string img = Ok page) images pages ->
  Forall (fun img => exists page,
              image_to_string img = Ok page /\ whitespace_only page) images ->
  Forall whitespace_only pages.
Proof.
  intros image image_to_string images pages Hall.
  induction Hall as [| img page images pages Hp Hall IH]; intro Hblank;
    constructor.
  - inversion Hblank as [| ? ? (page' & Hp' & Hws) _]; subst.
    rewrite Hp in Hp'. inversion Hp'; subst. exact Hws.
  - apply IH. inversion Hblank; assumption.
Qed.

(** X13. A PDF all of whose pages are recognized as blank, a PDF without
    pages included, is treated as empty text: the handler shows the warning
    and stores nothing, although the text is then one newline per page. *)
Theorem blank_pdf_stores_nothing :
  forall now pd (service remote : Type)
         (get : list pystr -> list pystr * result service)
         (append : service -> append_request -> remote -> result remote)
         (image : Type) (image_open : pystr -> result image)
         (image_to_string : image -> result pystr)
         (convert_from_path : pystr -> result (list image))
         (os_path_join : pystr -> pystr -> pystr)
         name base images button fs (st : app_state remote),
  lower name = base ++ str ".pdf" ->
  convert_from_path (os_path_join TEMP_DIR name) = Ok images ->
  Forall (fun img => exists page,
              image_to_string img = Ok page /\ whitespace_only page) images ->
  snd (upload_section now pd get append image_open image_to_string
         convert_from_path os_path_join (Some name) button fs st) =
  Ok (st_show (UiWarning (str "No text detected. Try a clearer image or PDF.")) st).
Proof.
  intros now pd service remote get append image image_open image_to_string
         convert_from_path os_path_join name base images button fs st
         Hname Hconv Hblank.
  rewrite upload_section_some. cbn [snd].
  assert (He : endswith (str ".pdf") (lower name) = true)
    by (apply endswith_iff; exists base; exact Hname).
  rewrite He.
  destruct (extract_text_from_pdf_cases image remote image_to_string
              convert_from_path (os_path_join TEMP_DIR name) st)
    as [(images' & pages & Hc & Hall & H) | (e & [Hc | (images' & img & Hc & Hin & Hf)] & _)].
  - rewrite H. cbn [bind fst snd].
    apply handle_raw_text_blank. apply concat_whitespace_only.
    rewrite Hconv in Hc. inversion Hc; subst images'.
    eapply blank_pages; eassumption.
  - congruence.
  - exfalso. rewrite Hconv in Hc. inversion Hc; subst images'.
    rewrite Forall_forall in Hblank.
    destruct (Hblank img Hin) as (page & Hp & _). congruence.
Qed.

Lemma blank_pdf_stores_nothing_witness :
  snd (upload_section sample_now sample_pd sample_get_service sample_append
         sample_open sample_ocr sample_convert sample_join
         (Some (str "Scan.PDF")) true [] sample_state) =
  Ok (st_show (UiWarning (str "No text detected. Try a clearer image or PDF."))
        sample_state).
Proof.
  apply (blank_pdf_stores_nothing sample_now sample_pd unit (list (list cell))
           sample_get_service sample_append pystr sample_open sample_ocr sample_convert
           sample_join (str "Scan.PDF") (str "scan") [str "  "; []] true []
           sample_state).
  - reflexivity.
  - reflexivity.
  - repeat constructor.
    + exists (str "  "). split; [reflexivity | repeat constructor].
    + exists []. split; [reflexivity | constructor].
Defined.

(** X14. The wrapper is chosen by the file name alone, without regard to
    case: a name that ends in [.pdf] in any mixture of cases is never
    opened as an image, and any other name is never converted as a PDF. *)
Theorem upload_dispatch_by_extension :
  forall now pd (service remote : Type)
         (get : list pystr -> list pystr * result service)
         (append : service -> append_request -> remote -> result remote)
         (image : Type) (image_to_string : image -> result pystr)
         (os_path_join : pystr -> pystr -> pystr)
         name button fs (st : app_state remote),
  ((exists base, lower name = base ++ str ".pdf") ->
   forall convert_from_path image_open1 image_open2,
     upload_section now pd get append image_open1 image_to_string
       convert_from_path os_path_join (Some name) button fs st =
     upload_section now pd get append image_open2 image_to_string
       convert_from_path os_path_join (Some name) button fs st) /\
  ((forall base, lower name <> base ++ str ".pdf") ->
   forall image_open convert_from_path1 convert_from_path2,
     upload_section now pd get append image_open image_to_string
       convert_from_path1 os_path_join (Some name) button fs st =
     upload_section now pd get append image_open image_to_string
       convert_from_path2 os_path_join (Some name) button fs st).
Proof.
  intros now pd service remote get append image image_to_string os_path_join
         name button fs st.
  split.
  - intros Hpdf convert_from_path image_open1 image_open2.
    apply endswith_iff in Hpdf. rewrite !upload_section_some, Hpdf. reflexivity.
  - intros Hno image_open convert_from_path1 convert_from_path2.
    assert (He : endswith (str ".pdf") (lower name) = false).
    { destruct (endswith (str ".pdf") (lower name)) eqn:E; [| reflexivity].
      apply endswith_iff in E. destruct E as [base E].
      exfalso. eapply Hno. exact E. }
    rewrite !upload_section_some, He. reflexivity.
Qed.

Lemma upload_dispatch_by_extension_witness :
  (exists base, lower (str "Invoice.PdF") = base ++ str ".pdf") /\
  upload_section sample_now sample_pd sample_get_service sample_append
    sample_open sample_ocr sample_convert sample_join
    (Some (str "Invoice.PdF")) false [] sample_state =
  upload_section sample_now sample_pd sample_get_service sample_append
    (sample_unreadable pystr) sample_ocr sample_convert sample_join
    (Some (str "Invoice.PdF")) false [] sample_state.
Proof.
  assert (H : exists base, lower (str "Invoice.PdF") = base ++ str ".pdf")
    by (exists (str "invoice"); reflexivity).
  split; [exact H |].
  exact (proj1 (upload_dispatch_by_extension sample_now sample_pd unit
                  (list (list cell)) sample_get_service sample_append pystr sample_ocr
                  sample_join (str "Invoice.PdF") false [] sample_state)
           H sample_convert sample_open (sample_unreadable pystr)).
Defined.

(** ** Credentials *)

(** X15. A service that [get_google_sheets_service] returns is built from
    credentials that are either the valid ones read from [token.json], the
    file being left as it was, or credentials just refreshed or obtained
    from the browser flow, whose JSON has then been written to
    [token.json]. When the function raises, [token.json] is as it was
    before, unless credentials were obtained and written and only building
    the service failed. *)
Theorem service_credentials_provenance :
  forall (service : Type) (from_file : pystr -> result credentials)
         (refresh : credentials -> result credentials)
         (run_local_server : result credentials)
         (build : credentials -> result service) token,
  let out := get_google_sheets_service from_file refresh run_local_server build token in
  (forall srv, snd out = Ok srv ->
     exists c, build c = Ok srv /\
       ((cred_valid c = true /\ fst out = token /\
         exists content, token = Some content /\ from_file content = Ok c)
        \/ (fst out = Some (cred_json c) /\
            (run_local_server = Ok c \/ exists c0, refresh c0 = Ok c)))) /\
  (forall e, snd out = Raise e ->
     fst out = token \/
     exists c, fst out = Some (cred_json c) /\ build c = Raise e).
Proof.
  intros service from_file refresh run_local_server build token. cbv zeta.
  assert (Hsave : forall obtained,
             (obtained = run_local_server \/ exists c0, obtained = refresh c0) ->
             (forall srv, snd (save_and_build build token obtained) = Ok srv ->
                exists c, build c = Ok srv /\
                  ((cred_valid c = true /\
                    fst (save_and_build build token obtained) = token /\
                    exists content, token = Some content /\ from_file content = Ok c)
                   \/ (fst (save_and_build build token obtained) = Some (cred_json c) /\
                       (run_local_server = Ok c \/ exists c0, refresh c0 = Ok c)))) /\
             (forall e, snd (save_and_build build token obtained) = Raise e ->
                fst (save_and_build build token obtained) = token \/
                exists c, fst (save_and_build build token obtained) = Some (cred_json c)
                          /\ build c = Raise e)).
  { intros obtained Hob. unfold save_and_build.
    destruct obtained as [c | e0] eqn:Ho; cbn [fst snd]; split.
    - intros srv Hb. exists c. split; [exact Hb |]. right. split; [reflexivity |].
      destruct Hob as [Hob | [c0 Hob]]; [left | right; exists c0]; congruence.
    - intros e Hb. right. exists c. auto.
    - intros srv Hb. discriminate.
    - intros e Hb. left. reflexivity. }
  unfold get_google_sheets_service.
  destruct token as [content |].
  - destruct (from_file content) as [c |e0] eqn:Hf; cbn [bind].
    + destruct (cred_valid c) eqn:Hv; cbn [negb].
      * cbn [fst snd]. split.
        -- intros srv Hb. exists c. split; [exact Hb |]. left. eauto.
        -- intros e Hb. left. reflexivity.
      * destruct (cred_expired c && truthy (cred_refresh_token c)).
        -- apply Hsave. right. exists c. reflexivity.
        -- apply Hsave. left. reflexivity.
    + cbn [fst snd]. split; [intros srv Hb; discriminate | intros e Hb; left; reflexivity].
  - apply Hsave. left. reflexivity.
Qed.

(** X16. A [token.json] that cannot be read, and a stale token whose
    refresh fails, are not made up for by the browser flow: the exception
    leaves [get_google_sheets_service], [token.json] is unchanged, and
    [export_to_google_sheets] then returns [False] and shows that
    exception. *)
Theorem broken_token_is_not_recovered :
  forall (service remote : Type) (from_file : pystr -> result credentials)
         (refresh : credentials -> result credentials)
         (run_local_server : result credentials)
         (build : credentials -> result service)
         (append : service -> append_request -> remote -> result remote)
         content e expense_data spreadsheet_id (st : app_state remote),
  (from_file content = Raise e \/
   exists c, from_file content = Ok c /\ cred_valid c = false /\
             cred_expired c = true /\ truthy (cred_refresh_token c) = true /\
             refresh c = Raise e) ->
  get_google_sheets_service from_file refresh run_local_server build (Some content)
  = (Some content, Raise e) /\
  export_to_google_sheets
    (snd (get_google_sheets_service from_file refresh run_local_server build
            (Some content)))
    append expense_data spreadsheet_id st
  = Ok (false, st_show (UiErrorExn (str "Error exporting to Google Sheets: ") e) st).
Proof.
  intros service remote from_file refresh run_local_server build append
         content e expense_data spreadsheet_id st H.
  assert (Hg : get_google_sheets_service from_file refresh run_local_server build
                 (Some content) = (Some content, Raise e)).
  { unfold get_google_sheets_service.
    destruct H as [H | (c & Hf & Hv & He & Ht & Hr)].
    - rewrite H. reflexivity.
    - rewrite Hf. cbn [bind]. rewrite Hv, He, Ht, Hr. reflexivity. }
  split; [exact Hg |]. rewrite Hg. reflexivity.
Qed.

Lemma broken_token_is_not_recovered_witness :
  get_google_sheets_service (fun _ => Ok sample_stale)
    (fun _ => Raise OtherException) (Ok sample_creds) (fun _ => Ok tt)
    (Some (str "{old}"))
  = (Some (str "{old}"), Raise OtherException) /\
  export_to_google_sheets
    (snd (get_google_sheets_service (fun _ => Ok sample_stale)
            (fun _ => Raise OtherException) (Ok sample_creds) (fun _ => Ok tt)
            (Some (str "{old}"))))
    sample_append [] (str "sheet") sample_state
  = Ok (false, st_show (UiErrorExn (str "Error exporting to Google Sheets: ")
                          OtherException) sample_state).
Proof.
  apply (broken_token_is_not_recovered unit (list (list cell))
           (fun _ => Ok sample_stale) (fun _ => Raise OtherException)
           (Ok sample_creds) (fun _ => Ok tt) sample_append (str "{old}")
           OtherException [] (str "sheet") sample_state).
  right. exists sample_stale. splits; reflexivity.
Defined.

(** ** The filter query *)

Lemma filter_query_cases : forall selected_category date_range,
  let cat_text := if str_eqb selected_category (str "all") then []
                  else str " AND category = ?" in
  let cat_params := if str_eqb selected_category (str "all") then []
                    else [selected_category] in
  (exists a b,
      date_range = DateTuple [a; b] /\
      filter_query selected_category date_range =
      (str "SELECT * FROM expenses WHERE 1=1" ++ cat_text
         ++ str " AND date >= ? AND date <= ? ORDER BY date DESC",
       cat_params ++ [strftime_ymd a; strftime_ymd b]))
  \/ ((forall a b, date_range <> DateTuple [a; b]) /\
      filter_query selected_category date_range =
      (str "SELECT * FROM expenses WHERE 1=1" ++ cat_text
         ++ str " ORDER BY date DESC",
       cat_params)).
Proof.
  intros selected_category date_range. cbv zeta.
  unfold filter_query, build_filter_query.
  destruct date_range as [d | [| a [| b [| c l]]]]; cbn [date_range_bounds].
  1-3, 5: right; split; [intros a0 b0 E; discriminate |];
          destruct (str_eqb selected_category (str "all")); reflexivity.
  left. exists a, b. split; [reflexivity |].
  destruct (str_eqb selected_category (str "all")); cbn [negb];
    rewrite <- !app_assoc; reflexivity.
Qed.

(** X17. In every query the filter builds, the number of [?] placeholders
    equals the number of parameters bound to it. *)
Theorem filter_placeholders_match_params : forall selected_category date_range,
  count_occ ascii_dec (fst (filter_query selected_category date_range)) "?"%char
  = length (snd (filter_query selected_category date_range)).
Proof.
  intros selected_category date_range.
  destruct (filter_query_cases selected_category date_range)
    as [(a & b & _ & H) | [_ H]]; rewrite H; cbn [fst snd];
    destruct (str_eqb selected_category (str "all")); reflexivity.
Qed.

(** X18. The text of the query never contains the selected category or any
    other input: it is one of four fixed strings, and the category and the
    formatted dates travel as parameters only. *)
Theorem filter_query_text_is_fixed : forall selected_category date_range,
  In (fst (filter_query selected_category date_range))
     (map str
        [ "SELECT * FROM expenses WHERE 1=1 ORDER BY date DESC";
          "SELECT * FROM expenses WHERE 1=1 AND category = ? ORDER BY date DESC";
          "SELECT * FROM expenses WHERE 1=1 AND date >= ? AND date <= ? ORDER BY date DESC";
          "SELECT * FROM expenses WHERE 1=1 AND category = ? AND date >= ? AND date <= ? ORDER BY date DESC"
        ]%string) /\
  Forall (fun p => p = selected_category \/ exists d, p = strftime_ymd d)
    (snd (filter_query selected_category date_range)).
Proof.
  intros selected_category date_range.
  destruct (filter_query_cases selected_category date_range)
    as [(a & b & _ & H) | [_ H]]; rewrite H; cbn [fst snd];
    destruct (str_eqb selected_category (str "all")); split;
    try (simpl; auto 10; fail);
    cbn [app];
    repeat (apply Forall_cons;
            [first [left; reflexivity | right; eexists; reflexivity] |]);
    apply Forall_nil.
Qed.

(** X19. The date bounds come as a pair or not at all: a range of exactly
    two dates adds both conditions, with the two dates formatted
    [YYYY-MM-DD] as the last parameters, from first; a single date, or a
    tuple of any other length, adds no date condition, so that picking only
    a start date filters nothing by date. *)
Theorem filter_date_bounds_come_in_pairs : forall selected_category date_range,
  let cat_params := if str_eqb selected_category (str "all") then []
                    else [selected_category] in
  (exists a b,
      date_range = DateTuple [a; b] /\
      snd (filter_query selected_category date_range)
      = cat_params ++ [strftime_ymd a; strftime_ymd b] /\
      count_occ ascii_dec (fst (filter_query selected_category date_range)) "<"%char = 1
      /\ count_occ ascii_dec (fst (filter_query selected_category date_range)) ">"%char = 1)
  \/ ((forall a b, date_range <> DateTuple [a; b]) /\
      snd (filter_query selected_category date_range) = cat_params /\
      count_occ ascii_dec (fst (filter_query selected_category date_range)) "<"%char = 0
      /\ count_occ ascii_dec (fst (filter_query selected_category date_range)) ">"%char = 0).
Proof.
  intros selected_category date_range. cbv zeta.
  destruct (filter_query_cases selected_category date_range)
    as [(a & b & Hr & H) | [Hr H]]; rewrite H; cbn [fst snd].
  - left. exists a, b. split; [exact Hr |].
    destruct (str_eqb selected_category (str "all")); splits; reflexivity.
  - right. split; [exact Hr |].
    destruct (str_eqb selected_category (str "all")); splits; reflexivity.
Qed.

(** ** Dates as text *)

Lemma str_leb_cons : forall x a y b,
  str_leb (x :: a) (y :: b) =
  if code x <? code y then true
  else if code y <? code x then false
  else str_leb a b.
Proof. reflexivity. Qed.

(** X20. The [YYYY-MM-DD] texts that are stored with the rows and bound as
    bounds of the range filter compare, character by character, exactly as
    the dates they stand for compare in time. *)
Theorem iso_text_order_is_date_order : forall d1 d2,
  valid_date d1 = true -> valid_date d2 = true ->
  str_leb (strftime_ymd d1) (strftime_ymd d2) = date_leb d1 d2.
Proof.
  intros [y1 m1 n1] [y2 m2 n2] H1 H2.
  unfold valid_date in H1, H2. cbn [year month day] in H1, H2.
  assert (B1 : 1 <= y1 / 1000 /\ y1 / 1000 <= 9 /\ m1 <= 12 /\ n1 <= 31).
  { pose proof (days_in_month_le y1 m1). unfold valid_ymd in H1. revert H1.
    generalize dependent (days_in_month y1 m1). intros k Hk H1. bool_arith. }
  assert (B2 : 1 <= y2 / 1000 /\ y2 / 1000 <= 9 /\ m2 <= 12 /\ n2 <= 31).
  { pose proof (days_in_month_le y2 m2). unfold valid_ymd in H2. revert H2.
    generalize dependent (days_in_month y2 m2). intros k Hk H2. bool_arith. }
  clear H1 H2. destruct B1 as (Hz1 & Hy1 & Hm1 & Hn1).
  destruct B2 as (Hz2 & Hy2 & Hm2 & Hn2).
  rewrite (strftime_ymd_chars (mkdate y1 m1 n1) Hz1).
  rewrite (strftime_ymd_chars (mkdate y2 m2 n2) Hz2).
  clear Hz1 Hz2.
  cbn [year month day]. unfold date_leb.
  cbn [year month day].
  rewrite !str_leb_cons.
  rewrite !code_digit_char
    by (try apply mod_10_lt; try (apply div_10_lt; lia); lia).
  change (code "-"%char) with 45.
  pose proof (four_digits y1 Hy1) as E1. pose proof (four_digits y2 Hy2) as E2.
  pose proof (two_digits m1) as E3. pose proof (two_digits m2) as E4.
  pose proof (two_digits n1) as E5. pose proof (two_digits n2) as E6.
  pose proof (mod_10_lt (y1 / 100)) as L1. pose proof (mod_10_lt (y1 / 10)) as L2.
  pose proof (mod_10_lt y1) as L3. pose proof (mod_10_lt (y2 / 100)) as L4.
  pose proof (mod_10_lt (y2 / 10)) as L5. pose proof (mod_10_lt y2) as L6.
  pose proof (mod_10_lt m1) as L7. pose proof (mod_10_lt m2) as L8.
  pose proof (mod_10_lt n1) as L9. pose proof (mod_10_lt n2) as L10.
  generalize dependent (y1 / 1000). generalize dependent (y1 / 100 mod 10).
  generalize dependent (y1 / 10 mod 10). generalize dependent (y1 mod 10).
  generalize dependent (y2 / 1000). generalize dependent (y2 / 100 mod 10).
  generalize dependent (y2 / 10 mod 10). generalize dependent (y2 mod 10).
  generalize dependent (m1 / 10). generalize dependent (m1 mod 10).
  generalize dependent (m2 / 10). generalize dependent (m2 mod 10).
  generalize dependent (n1 / 10). generalize dependent (n1 mod 10).
  generalize dependent (n2 / 10). generalize dependent (n2 mod 10).
  intros.
  repeat head_if; cbn [str_leb];
    try reflexivity; try lia;
    try (symmetry; apply Nat.leb_le; lia);
    try (symmetry; apply Nat.leb_gt; lia).
Qed.

Lemma iso_text_order_is_date_order_witness :
  valid_date (mkdate 2024 2 29) = true /\
  valid_date (mkdate 2024 11 3) = true /\
  str_leb (strftime_ymd (mkdate 2024 2 29)) (strftime_ymd (mkdate 2024 11 3)) =
  date_leb (mkdate 2024 2 29) (mkdate 2024 11 3).
Proof.
  split; [reflexivity |]. split; [reflexivity |].
  exact (iso_text_order_is_date_order (mkdate 2024 2 29) (mkdate 2024 11 3)
           eq_refl eq_refl).
Defined.
